(** * traefik-plugin-cache-by-route: the cache middleware of [cache.go]

    A shallow embedding of [cache.go] and the properties of its admission
    policy, cache key, response capture and request life cycle.

    Go packages are rendered as modules ([time], [url], [regexp], [http]);
    the declarations of [cache.go] itself live at top level under their Go
    names.  Code that [cache.go] calls but does not contain (the file store,
    [encoding/json], [cachecontrol], [regexp.Compile], the wall clock and the
    iteration order of Go maps) is collected in the class [Lib]; every
    definition below is a function of such a [Lib], and the theorems hold
    for all of them. *)

From Stdlib Require Import ZArith Lia Permutation.
From Stdlib.Strings Require Import Ascii String Byte.
From stdpp Require Import base option list strings gmap pretty.

Local Open Scope Z_scope.

(** ** Basic types *)

(** [[]byte] *)
Definition bytes := list byte.

(** Go's [error] values are only logged or tested against [nil] here; the
    message is all that is kept. *)
Definition error := string.

(** ** Package [time] *)
Module time.

(** [time.Duration] is an [int64] count of nanoseconds. *)
Definition Duration := Z.

(** An instant, as nanoseconds on one common time line. *)
Definition Time := Z.

Definition minDuration : Duration := - 2 ^ 63.
Definition maxDuration : Duration := 2 ^ 63 - 1.

(** Two's complement wrap-around of [int64] arithmetic. *)
Definition wrap (z : Z) : Duration := (z + 2 ^ 63) mod 2 ^ 64 - 2 ^ 63.

Definition Second : Duration := 1000000000.
Definition Minute : Duration := 60 * Second.

(** [d * e] on [Duration]s. *)
Definition mul (d e : Duration) : Duration := wrap (d * e).

(** [time.Duration(n) * time.Second] for a Go [int] [n]. *)
Definition seconds (n : Z) : Duration := mul (wrap n) Second.

(** [t.Sub(u)]: saturates at the ends of [Duration]. *)
Definition Sub (t u : Time) : Duration :=
  Z.max minDuration (Z.min maxDuration (t - u)).

(** [t.Add(d)] *)
Definition Add (t : Time) (d : Duration) : Time := t + d.

(** [time.Until(t)], with the clock reading [now]. *)
Definition Until (now t : Time) : Duration := Sub t now.

(** [int(d.Seconds())]: the conversion to [int] truncates toward zero. *)
Definition SecondsInt (d : Duration) : Z := Z.quot d Second.

End time.

(** ** Package [net/url] *)
Module url.

(** The parts of [url.URL] a server request carries. *)
Record URL := { Path : string; RawQuery : string }.

(** [u.String()] for an origin-form request target whose path needs no
    escaping: the path, then [?] and the query when there is one. *)
Definition String (u : URL) : string :=
  if decide (RawQuery u = "") then Path u else Path u +:+ "?" +:+ RawQuery u.

End url.

(** ** Package [regexp] *)
Module regexp.

(** A compiled expression: its source text and the language it accepts. *)
Record Regexp := { expr : string; MatchString : string -> bool }.

End regexp.

(** ** Package [net/http] *)
Module http.

(** [http.Header] is [map[string][]string]. *)
Abbreviation Header := (gmap string (list string)).

Record Request := {
  Method : string;
  Host : string;
  URL : url.URL;
  ReqHeader : Header
}.

(** The result of [Write]: bytes written and error. *)
Definition WriteResult : Type := Z * option error.

(** The interface [http.ResponseWriter].  [Header()] hands out the live
    map, which callers mutate in place: [w_Header] reads it and
    [w_onHeader] applies a mutation to it. *)
Class ResponseWriter (W : Type) := {
  w_Header : W -> Header;
  w_onHeader : (Header -> Header) -> W -> W;
  w_Write : bytes -> W -> WriteResult * W;
  w_WriteHeader : Z -> W -> W
}.

(** [h.Add(key, value)] and [h.Set(key, value)], given the canonical form
    of the key. *)
Definition Header_Add (ckey value : string) (h : Header) : Header :=
  <[ckey := default [] (h !! ckey) ++ [value]]> h.

Definition Header_Set (ckey value : string) (h : Header) : Header :=
  <[ckey := [value]]> h.

(** What a handler does with the writer it is given, as a finite tree of
    calls on the [ResponseWriter] interface. *)
Inductive Script :=
| Done
| ReadHeader (k : Header -> Script)
| OnHeader (f : Header -> Header) (k : Script)
| CallWriteHeader (s : Z) (k : Script)
| CallWrite (p : bytes) (k : WriteResult -> Script).

(** [http.Handler]: the calls [ServeHTTP(w, r)] makes on [w]. *)
Definition Handler := Request -> Script.

Fixpoint run {W} `{ResponseWriter W} (s : Script) (w : W) : W :=
  match s with
  | Done => w
  | ReadHeader k => run (k (w_Header w)) w
  | OnHeader f k => run k (w_onHeader f w)
  | CallWriteHeader c k => run k (w_WriteHeader c w)
  | CallWrite p k => let '(res, w') := w_Write p w in run (k res) w'
  end.

(** The writer of the [net/http] server, as the client sees it: the live
    header map, the status line once sent (with the headers frozen at that
    moment) and the body bytes sent so far.  The first [WriteHeader] wins,
    and a [Write] before any [WriteHeader] sends status 200.  This is what
    the server does for a final status code that allows a body (200..999
    but 204 and 304), a request method other than HEAD and no declared
    [Content-Length]; outside of that the server behaves otherwise (it
    panics on codes outside 100..999, sends 1xx codes as interim responses,
    and discards or refuses body bytes), and the model is used only
    within. *)
Record ServerWriter := {
  header : Header;
  sent : option (Z * Header);
  out : bytes
}.

Definition ServerWriter_WriteHeader (s : Z) (w : ServerWriter) : ServerWriter :=
  match sent w with
  | Some _ => w
  | None => {| header := header w; sent := Some (s, header w); out := out w |}
  end.

Definition ServerWriter_Write (p : bytes) (w : ServerWriter)
  : WriteResult * ServerWriter :=
  let w := ServerWriter_WriteHeader 200 w in
  ((Z.of_nat (length p), None),
   {| header := header w; sent := sent w; out := out w ++ p |}).

#[global] Instance ServerWriter_ResponseWriter : ResponseWriter ServerWriter := {
  w_Header := header;
  w_onHeader f w := {| header := f (header w); sent := sent w; out := out w |};
  w_Write := ServerWriter_Write;
  w_WriteHeader := ServerWriter_WriteHeader
}.

Definition newServerWriter : ServerWriter :=
  {| header := ∅; sent := None; out := [] |}.

End http.

(** ** [cache.go]: configuration *)

Record Uri := { Pattern : string; TTL : Z }.

Record Config := {
  Path : string;
  MaxExpiry : Z;
  Cleanup : Z;
  AddStatusHeader : bool;
  AllowedHTTPMethods : list string;
  SkipCacheControlHeader : bool;
  DefaultTTL : Z;
  URIs : list Uri
}.

Definition CreateConfig : Config := {|
  Path := "";
  MaxExpiry := time.SecondsInt (5 * time.Minute);
  Cleanup := time.SecondsInt (5 * time.Minute);
  AllowedHTTPMethods := ["GET"; "HEAD"];
  DefaultTTL := 0;
  SkipCacheControlHeader := false;
  AddStatusHeader := true;
  URIs := []
|}.

Definition cacheHeader := "Cache-Status".
Definition cacheHitStatus := "hit".
Definition cacheMissStatus := "miss".
Definition cacheErrorStatus := "error".

Record cacheData := {
  ExpiresAt : time.Time;
  Status : Z;
  Headers : http.Header;
  Body : bytes
}.

(** ** What [cache.go] imports *)

(** The code [cache.go] calls and does not define.  The file store
    ([newFileCache], [Get], [Set]) is a state transformer on an abstract
    [Store]; [json.Marshal] hands back its bytes together with the error;
    [cachecontrol.CachableResponseWriter] yields reasons, the expiry instant
    and an error; [time_Now n] is the reading of the [n]-th call of
    [time.Now()]; [rangeOrder n] is the order in which the [n]-th [range]
    over a map visits its entries, some permutation of them. *)
Class Lib := {
  Store : Type;
  newFileCache : string -> time.Duration -> error + Store;
  fileCache_Get : string -> Store -> (error + bytes) * Store;
  fileCache_Set : string -> bytes -> time.Duration -> Store -> option error * Store;
  regexp_Compile : string -> error + regexp.Regexp;
  CachableResponseWriter :
    http.Request -> Z -> http.Header -> list Z * time.Time * option error;
  json_Marshal : cacheData -> bytes * option error;
  json_Unmarshal : bytes -> error + cacheData;
  CanonicalHeaderKey : string -> string;
  time_Now : nat -> time.Time;
  rangeOrder : nat -> forall A : Type, list A -> list A;
  rangeOrder_perm : forall n A (l : list A), Permutation (rangeOrder n A l) l
}.

(** ** A state monad for the request path *)

(** What a request leaves behind outside the response: the calls on the
    store, the call of the wrapped handler and the lines logged. *)
Inductive Event :=
| EvGet (key : string)
| EvNext (r : http.Request)
| EvLog (msg : string)
| EvSet (key : string) (b : bytes) (ttl : time.Duration).

(** The writes to the store among the events, in order. *)
Definition sets (tr : list Event) : list (string * bytes * time.Duration) :=
  omap (fun e => match e with EvSet key b ttl => Some (key, b, ttl) | _ => None end) tr.

(** The calls of the wrapped handler among the events. *)
Definition nexts (tr : list Event) : list http.Request :=
  omap (fun e => match e with EvNext r => Some r | _ => None end) tr.

Section Middleware.

Context `{L : Lib} {W : Type} `{RW : !http.ResponseWriter W}.

(** The mutable objects a request touches: the response writer [w], the
    file store behind [m.cache], the count of clock readings and map
    traversals made so far, and the events so far (oldest first). *)
Record Sys := {
  writer : W;
  fcache : Store;
  ticks : nat;
  trace : list Event
}.

Definition M (A : Type) : Type := Sys -> A * Sys.

Definition ret {A} (a : A) : M A := fun s => (a, s).

Definition bind {A B} (c : M A) (k : A -> M B) : M B :=
  fun s => let '(a, s') := c s in k a s'.

Notation "x <- c ;; k" := (bind c (fun x => k))
  (at level 100, c at next level, right associativity).
Notation "c ;;; k" := (bind c (fun _ => k))
  (at level 100, right associativity).

Definition emit (e : Event) : M unit :=
  fun s => (tt, {| writer := writer s; fcache := fcache s; ticks := ticks s;
                   trace := trace s ++ [e] |}).

Definition getWriter : M W := fun s => (writer s, s).

Definition onWriter (f : W -> W) : M unit :=
  fun s => (tt, {| writer := f (writer s); fcache := fcache s;
                   ticks := ticks s; trace := trace s |}).

Definition tick : M nat :=
  fun s => (ticks s, {| writer := writer s; fcache := fcache s;
                        ticks := S (ticks s); trace := trace s |}).

(** [time.Now()] *)
Definition Now : M time.Time := n <- tick ;; ret (time_Now n).

(** The entries of a map in the order a [range] loop meets them. *)
Definition range {A} (entries : list A) : M (list A) :=
  n <- tick ;; ret (rangeOrder n A entries).

(** [log.Printf] *)
Definition logPrintf (msg : string) : M unit := emit (EvLog msg).

(** [m.cache.Get(key)] *)
Definition cache_Get (key : string) : M (error + bytes) :=
  emit (EvGet key) ;;;
  fun s => let '(res, fc) := fileCache_Get key (fcache s) in
           (res, {| writer := writer s; fcache := fc; ticks := ticks s;
                    trace := trace s |}).

(** [m.cache.Set(key, b, expiry)] *)
Definition cache_Set (key : string) (b : bytes) (expiry : time.Duration)
  : M (option error) :=
  emit (EvSet key b expiry) ;;;
  fun s => let '(err, fc) := fileCache_Set key b expiry (fcache s) in
           (err, {| writer := writer s; fcache := fc; ticks := ticks s;
                    trace := trace s |}).

(** ** [cache.go]: the middleware *)

(** [type cache struct].  The field [cache *fileCache] points at the store
    whose state is [fcache]; [uriMap] is keyed by pointer, so every
    compiled pattern is an entry of its own and the map is the list of its
    entries. *)
Record cache := {
  name : string;
  cfg : Config;
  uriMap : list (regexp.Regexp * Z);
  next : http.Handler
}.

(** The loop of [New] over [cfg.URIs]. *)
Fixpoint compileURIs (uris : list Uri) (uriMap : list (regexp.Regexp * Z))
  : list (regexp.Regexp * Z) :=
  match uris with
  | [] => uriMap
  | uri :: uris =>
      match regexp_Compile (Pattern uri) with
      | inl _ => compileURIs uris uriMap
      | inr re => compileURIs uris (uriMap ++ [(re, TTL uri)])
      end
  end.

(** [func New]: the plugin instance and the store it opened, or the
    error. *)
Definition New (next : http.Handler) (cfg : Config) (name : string)
  : error + cache * Store :=
  if MaxExpiry cfg <=? 1 then
    inl "maxExpiry must be greater or equal to 1"
  else if Cleanup cfg <=? 1 then
    inl "cleanup must be greater or equal to 1"
  else
    match newFileCache (Path cfg) (time.seconds (Cleanup cfg)) with
    | inl err => inl err
    | inr fc =>
        let uriMap := compileURIs (URIs cfg) [] in
        inr ({| name := name; cfg := cfg; uriMap := uriMap; next := next |}, fc)
    end.

(** [func cacheKey] *)
Definition cacheKey (r : http.Request) : string :=
  http.Method r +:+ http.Host r +:+ url.Path (http.URL r).

(** [type responseWriter struct] *)
Record responseWriter := {
  ResponseWriter : W;
  status : Z;
  body : bytes
}.

Definition responseWriter_Header (rw : responseWriter) : http.Header :=
  http.w_Header (ResponseWriter rw).

Definition responseWriter_onHeader (f : http.Header -> http.Header)
    (rw : responseWriter) : responseWriter :=
  {| ResponseWriter := http.w_onHeader f (ResponseWriter rw);
     status := status rw; body := body rw |}.

Definition responseWriter_Write (p : bytes) (rw : responseWriter)
  : http.WriteResult * responseWriter :=
  let body := body rw ++ p in
  let '(res, w) := http.w_Write p (ResponseWriter rw) in
  (res, {| ResponseWriter := w; status := status rw; body := body |}).

Definition responseWriter_WriteHeader (s : Z) (rw : responseWriter)
  : responseWriter :=
  {| ResponseWriter := http.w_WriteHeader s (ResponseWriter rw);
     status := s; body := body rw |}.

#[global] Instance responseWriter_ResponseWriter
  : http.ResponseWriter responseWriter := {
  http.w_Header := responseWriter_Header;
  http.w_onHeader := responseWriter_onHeader;
  http.w_Write := responseWriter_Write;
  http.w_WriteHeader := responseWriter_WriteHeader
}.

(** The loop of [cacheable] over [m.uriMap]: the pair it returns from
    inside the loop, if it does. *)
Fixpoint matchURIs (m : cache) (requestUrl : string)
    (entries : list (regexp.Regexp * Z)) : option (time.Duration * bool) :=
  match entries with
  | [] => None
  | (re, ttl) :: entries =>
      if regexp.MatchString re requestUrl then
        let expiry := time.seconds ttl in
        let maxExpiry := time.seconds (MaxExpiry (cfg m)) in
        let expiry := if maxExpiry <? expiry then maxExpiry else expiry in
        Some (expiry, true)
      else matchURIs m requestUrl entries
  end.

(** [func (m *cache) cacheable]; [w] is the writer of the state. *)
Definition cacheable (m : cache) (r : http.Request) (status : Z)
  : M (time.Duration * bool) :=
  if negb (SkipCacheControlHeader (cfg m)) then
    w <- getWriter ;;
    let '(reasons, expireBy, err) :=
      CachableResponseWriter r status (http.w_Header w) in
    if bool_decide (err ≠ None) || (0 <? Z.of_nat (length reasons)) then
      ret (0, false)
    else
      expireBy <- (if SkipCacheControlHeader (cfg m) then
                     now <- Now ;;
                     ret (time.Add now (time.seconds (DefaultTTL (cfg m))))
                   else ret expireBy) ;;
      now <- Now ;;
      let expiry := time.Until now expireBy in
      let maxExpiry := time.seconds (MaxExpiry (cfg m)) in
      let expiry := if maxExpiry <? expiry then maxExpiry else expiry in
      ret (expiry, true)
  else
    let requestUrl := url.String (http.URL r) in
    entries <- range (uriMap m) ;;
    match matchURIs m requestUrl entries with
    | Some res => ret res
    | None =>
        if 0 <? DefaultTTL (cfg m) then
          let expiry := time.seconds (DefaultTTL (cfg m)) in
          let maxExpiry := time.seconds (MaxExpiry (cfg m)) in
          let expiry := if maxExpiry <? expiry then maxExpiry else expiry in
          ret (expiry, true)
        else ret (0, false)
    end.

(** The replay loop of [ServeHTTP] over [data.Headers]. *)
Definition addHeaders (entries : list (string * list string))
    (h : http.Header) : http.Header :=
  foldl (fun h '(key, vals) =>
           foldl (fun h val => http.Header_Add (CanonicalHeaderKey key) val h)
                 h vals)
        h entries.

(** The first half of [ServeHTTP], up to the [return] of a hit: [None]
    when the response was served from the store, otherwise the value of
    [cs] with which the rest of the function runs. *)
Definition lookup (m : cache) (key : string) : M (option string) :=
  let cs := cacheMissStatus in
  res <- cache_Get key ;;
  match res with
  | inr b =>
      match json_Unmarshal b with
      | inl _ => ret (Some cacheErrorStatus)
      | inr data =>
          entries <- range (map_to_list (Headers data)) ;;
          onWriter (http.w_onHeader (addHeaders entries)) ;;;
          (if AddStatusHeader (cfg m) then
             now <- Now ;;
             let maxAge := time.SecondsInt (time.Sub (ExpiresAt data) now) in
             onWriter (http.w_onHeader
               (http.Header_Set (CanonicalHeaderKey "Cache-Control")
                                ("max-age=" +:+ pretty maxAge))) ;;;
             onWriter (http.w_onHeader
               (http.Header_Set (CanonicalHeaderKey cacheHeader) cacheHitStatus))
           else ret tt) ;;;
          onWriter (http.w_WriteHeader (Status data)) ;;;
          onWriter (fun w => snd (http.w_Write (Body data) w)) ;;;
          ret None
      end
  | inl _ => ret (Some cs)
  end.

(** [m.next.ServeHTTP(rw, r)] with [rw := &responseWriter{ResponseWriter: w}]:
    the handler writes through [rw] into [w]; the capture is returned. *)
Definition serveNext (m : cache) (r : http.Request) : M responseWriter :=
  emit (EvNext r) ;;;
  w <- getWriter ;;
  let rw := {| ResponseWriter := w; status := 0; body := [] |} in
  let rw := http.run (next m r) rw in
  onWriter (fun _ => ResponseWriter rw) ;;;
  ret rw.

(** Lines 133-135 of [ServeHTTP]: the diagnostic header of a response
    that is not served from the store. *)
Definition announce (m : cache) (cs : string) : M unit :=
  if AddStatusHeader (cfg m) then
    onWriter (http.w_onHeader
      (http.Header_Set (CanonicalHeaderKey cacheHeader) cs))
  else ret tt.

(** Lines 145-159 of [ServeHTTP]: the entry is built, encoded and handed
    to the store. *)
Definition writeBack (m : cache) (key : string) (rw : responseWriter)
    (expiry : time.Duration) : M unit :=
  now <- Now ;;
  w <- getWriter ;;
  let data := {| ExpiresAt := time.Add now expiry;
                 Status := status rw;
                 Headers := http.w_Header w;
                 Body := body rw |} in
  let '(b, err) := json_Marshal data in
  (match err with
   | Some e => logPrintf ("Error serializing cache item: " +:+ e)
   | None => ret tt
   end) ;;;
  err <- cache_Set key b expiry ;;
  match err with
  | Some e => logPrintf ("Error setting cache item: " +:+ e)
  | None => ret tt
  end.

(** Lines 133-159 of [ServeHTTP]: what follows a lookup that did not
    serve the response, [cs] being the status found by the lookup. *)
Definition passThrough (m : cache) (r : http.Request) (key cs : string)
  : M unit :=
  announce m cs ;;;
  rw <- serveNext m r ;;
  res <- cacheable m r (status rw) ;;
  let '(expiry, ok) := res in
  if negb ok then ret tt
  else writeBack m key rw expiry.

(** [func (m *cache) ServeHTTP] *)
Definition ServeHTTP (m : cache) (r : http.Request) : M unit :=
  let key := cacheKey r in
  served <- lookup m key ;;
  match served with
  | None => ret tt
  | Some cs => passThrough m r key cs
  end.

(** ** Auxiliary descriptions of the request path *)

(** The state after the store has answered a [Get]. *)
Definition afterGet (key : string) (fc : Store) (s : Sys) : Sys :=
  {| writer := writer s; fcache := fc; ticks := ticks s;
     trace := trace s ++ [EvGet key] |}.

(** What the handler writes to [w]: the bytes of its [Write] calls, in
    order. *)
Fixpoint written (sc : http.Script) (w : W) : bytes :=
  match sc with
  | http.Done => []
  | http.ReadHeader k => written (k (http.w_Header w)) w
  | http.OnHeader f k => written k (http.w_onHeader f w)
  | http.CallWriteHeader c k => written k (http.w_WriteHeader c w)
  | http.CallWrite p k =>
      let '(res, w') := http.w_Write p w in p ++ written (k res) w'
  end.

(** The argument of the handler's last [WriteHeader] call, or [status]
    when it makes none. *)
Fixpoint lastStatus (sc : http.Script) (w : W) (status : Z) : Z :=
  match sc with
  | http.Done => status
  | http.ReadHeader k => lastStatus (k (http.w_Header w)) w status
  | http.OnHeader f k => lastStatus k (http.w_onHeader f w) status
  | http.CallWriteHeader c k => lastStatus k (http.w_WriteHeader c w) c
  | http.CallWrite p k =>
      let '(res, w') := http.w_Write p w in lastStatus (k res) w' status
  end.

(** The entry [writeBack] builds in state [s]. *)
Definition entry (rw : responseWriter) (expiry : time.Duration)
    (s : Sys) : cacheData :=
  {| ExpiresAt := time.Add (time_Now (ticks s)) expiry;
     Status := status rw;
     Headers := http.w_Header (writer s);
     Body := body rw |}.

(** The plugin [m] with another allow-list of methods. *)
Definition withAllowedHTTPMethods (methods : list string) (m : cache) : cache :=
  {| name := name m;
     cfg := {| Path := Path (cfg m);
               MaxExpiry := MaxExpiry (cfg m);
               Cleanup := Cleanup (cfg m);
               AddStatusHeader := AddStatusHeader (cfg m);
               AllowedHTTPMethods := methods;
               SkipCacheControlHeader := SkipCacheControlHeader (cfg m);
               DefaultTTL := DefaultTTL (cfg m);
               URIs := URIs (cfg m) |};
     uriMap := uriMap m;
     next := next m |}.

(** ** The policy, described *)

(** The duration that [cacheable] clamps, as the code computes it, when
    there is one: in standard mode [time.Until(expireBy)], which saturates,
    unless caching is forbidden; in override mode the TTL of the first rule
    that matches, else the default TTL if it is greater than zero, each
    converted by [time.Duration(ttl) * time.Second], which wraps around like
    [int64]. *)
Definition candidateExpiry (m : cache) (r : http.Request) (status : Z)
    (s : Sys) : option time.Duration :=
  if SkipCacheControlHeader (cfg m) then
    match list_find (fun e => regexp.MatchString e.1 (url.String (http.URL r)) = true)
                    (rangeOrder (ticks s) _ (uriMap m)) with
    | Some (_, (_, ttl)) => Some (time.seconds ttl)
    | None =>
        if decide (0 < DefaultTTL (cfg m)) then
          Some (time.seconds (DefaultTTL (cfg m)))
        else None
    end
  else
    let '(reasons, expireBy, err) :=
      CachableResponseWriter r status (http.w_Header (writer s)) in
    match err, reasons with
    | None, [] => Some (time.Until (time_Now (ticks s)) expireBy)
    | _, _ => None
    end.

(** The candidate expiry in the words of the specification, as a plain
    number of nanoseconds with no wrap-around and no saturation: in standard
    mode the freshness lifetime from now, unless caching is forbidden; in
    override mode the TTL of the first rule that matches, else the default
    TTL if it is greater than zero. *)
Definition candidateExpirySpec (m : cache) (r : http.Request) (status : Z)
    (s : Sys) : option Z :=
  if SkipCacheControlHeader (cfg m) then
    match list_find (fun e => regexp.MatchString e.1 (url.String (http.URL r)) = true)
                    (rangeOrder (ticks s) _ (uriMap m)) with
    | Some (_, (_, ttl)) => Some (ttl * time.Second)
    | None =>
        if decide (0 < DefaultTTL (cfg m)) then
          Some (DefaultTTL (cfg m) * time.Second)
        else None
    end
  else
    let '(reasons, expireBy, err) :=
      CachableResponseWriter r status (http.w_Header (writer s)) in
    match err, reasons with
    | None, [] => Some (expireBy - time_Now (ticks s))
    | _, _ => None
    end.


(** No rule matches the URL of [r]. *)
Definition unmatched (m : cache) (r : http.Request) : Prop :=
  Forall (fun e => regexp.MatchString e.1 (url.String (http.URL r)) = false)
         (uriMap m).

(** The configured maximum expiry as the code converts it to a duration. *)
Definition maximumExpiry (m : cache) : time.Duration :=
  time.seconds (MaxExpiry (cfg m)).

End Middleware.

Arguments Sys {L} W.
Arguments M {L} W A.
Arguments cache : clear implicits.
Arguments responseWriter : clear implicits.

(** ** A concrete library, for running the middleware *)
Module Sim.

(** Modelled from the spec: the file store of the repository ([fileCache],
    not part of [cache.go]).  [Get] returns the value of a live entry and
    not-found otherwise, checking the expiry on every read; [Set] writes or
    overwrites the value with expiry now + ttl; construction fails when the
    storage location is invalid (here: empty). *)
Record MemStore := {
  clock : time.Time;
  entries : gmap string (bytes * time.Time)
}.

Definition errCacheMiss : error := "cache miss".

Definition newMemStore (path : string) (interval : time.Duration)
  : error + MemStore :=
  if decide (path = "") then inl "invalid cache path"
  else inr {| clock := 0; entries := ∅ |}.

Definition Get (key : string) (c : MemStore) : (error + bytes) * MemStore :=
  match entries c !! key with
  | Some (b, expires) =>
      if expires <? clock c then (inl errCacheMiss, c) else (inr b, c)
  | None => (inl errCacheMiss, c)
  end.

Definition Set_ (key : string) (b : bytes) (ttl : time.Duration)
    (c : MemStore) : option error * MemStore :=
  (None, {| clock := clock c;
            entries := <[key := (b, time.Add (clock c) ttl)]> (entries c) |}).

(** Two shapes of pattern, with the meaning [regexp] gives them: a text
    free of metacharacters matches the strings that contain it, and such a
    text between [^] and [$] matches itself only. *)
Definition metachars : list ascii :=
  list_ascii_of_string "\.+*?()|[]{}^$".

Definition literal (p : string) : bool :=
  forallb (fun c => negb (bool_decide (c ∈ metachars))) (list_ascii_of_string p).

Fixpoint contains (p s : string) : bool :=
  String.prefix p s ||
  match s with
  | EmptyString => false
  | String _ s' => contains p s'
  end.

Definition Compile (p : string) : error + regexp.Regexp :=
  if literal p then
    inr {| regexp.expr := p; regexp.MatchString := contains p |}
  else
    match p with
    | String "^"%char q =>
        let n := String.length q in
        let lit := String.substring 0 (n - 1)%nat q in
        if bool_decide (String.substring (n - 1)%nat 1 q = "$") && literal lit then
          inr {| regexp.expr := p;
                 regexp.MatchString := fun s => bool_decide (s = lit) |}
        else inl "unsupported pattern"
    | _ => inl "unsupported pattern"
    end.

(** A library whose store is [MemStore], whose clock advances by one
    second per reading, whose maps are traversed in the order given, and
    whose header keys are taken as canonical already; the policy library
    and the codec are arguments. *)
Definition lib
    (cc : http.Request -> Z -> http.Header -> list Z * time.Time * option error)
    (marshal : cacheData -> bytes * option error)
    (unmarshal : bytes -> error + cacheData) : Lib := {|
  Store := MemStore;
  newFileCache := newMemStore;
  fileCache_Get := Get;
  fileCache_Set := Set_;
  regexp_Compile := Compile;
  CachableResponseWriter := cc;
  json_Marshal := marshal;
  json_Unmarshal := unmarshal;
  CanonicalHeaderKey := fun key => key;
  time_Now := fun n => Z.of_nat n * time.Second;
  rangeOrder := fun _ _ l => l;
  rangeOrder_perm := fun _ _ l => Permutation_refl l
|}.

(** A policy library that finds every response cacheable until [expireBy],
    and one that always reports the reason [r]. *)
Definition ccFresh (expireBy : time.Time)
  : http.Request -> Z -> http.Header -> list Z * time.Time * option error :=
  fun _ _ _ => ([], expireBy, None).

Definition ccReason (r : Z)
  : http.Request -> Z -> http.Header -> list Z * time.Time * option error :=
  fun _ _ _ => ([r], 0, None).

(** A codec that keeps the body and nothing else, one whose encoder
    always fails, and one whose decoder always fails. *)
Definition marshalBody (d : cacheData) : bytes * option error := (Body d, None).

Definition unmarshalBody (b : bytes) : error + cacheData :=
  inr {| ExpiresAt := 0; Status := 200; Headers := ∅; Body := b |}.

Definition marshalFails (d : cacheData) : bytes * option error :=
  ([], Some "json: unsupported value").

Definition unmarshalFails (b : bytes) : error + cacheData :=
  inl "unexpected end of JSON input".

(** The state in which a request arrives: a fresh writer, the given
    store, no event yet. *)
Definition start `{L : Lib} (fc : Store) : Sys http.ServerWriter :=
  {| writer := http.newServerWriter; fcache := fc; ticks := 0%nat; trace := [] |}.

End Sim.

(** ** Concrete configurations and requests *)
Module Scenario.

(** The plugin as [New] builds it for [cfg], and the store it opens. *)
Definition plugin `{L : Lib} (next : http.Handler) (cfg : Config) : cache :=
  {| name := "cache"; cfg := cfg; uriMap := compileURIs (URIs cfg) [];
     next := next |}.

Definition emptyStore : Sim.MemStore :=
  {| Sim.clock := 0; Sim.entries := ∅ |}.

(** Override mode with one rule and the default allow-list; and standard
    mode with the same limits. *)
Definition override (pattern : string) (ttl defaultTTL : Z) : Config := {|
  Path := "/var/cache/traefik";
  MaxExpiry := 300;
  Cleanup := 300;
  AddStatusHeader := true;
  AllowedHTTPMethods := ["GET"; "HEAD"];
  SkipCacheControlHeader := true;
  DefaultTTL := defaultTTL;
  URIs := [ {| Pattern := pattern; TTL := ttl |} ]
|}.

Definition standard (maxExpiry : Z) : Config := {|
  Path := "/var/cache/traefik";
  MaxExpiry := maxExpiry;
  Cleanup := 300;
  AddStatusHeader := true;
  AllowedHTTPMethods := ["GET"; "HEAD"];
  SkipCacheControlHeader := false;
  DefaultTTL := 0;
  URIs := []
|}.

(** The same configuration without the diagnostic header. *)
Definition quiet (c : Config) : Config := {|
  Path := Path c;
  MaxExpiry := MaxExpiry c;
  Cleanup := Cleanup c;
  AddStatusHeader := false;
  AllowedHTTPMethods := AllowedHTTPMethods c;
  SkipCacheControlHeader := SkipCacheControlHeader c;
  DefaultTTL := DefaultTTL c;
  URIs := URIs c
|}.

Definition request (method host path query : string) : http.Request :=
  {| http.Method := method; http.Host := host;
     http.URL := {| url.Path := path; url.RawQuery := query |};
     http.ReqHeader := ∅ |}.

Definition ok : bytes := ["o"%byte; "k"%byte].

(** A handler that sets the status and writes a body, and one that only
    writes the body. *)
Definition explicit200 : http.Handler :=
  fun _ => http.CallWriteHeader 200 (http.CallWrite ok (fun _ => http.Done)).

Definition bodyOnly : http.Handler :=
  fun _ => http.CallWrite ok (fun _ => http.Done).

(** Libraries over the in-memory store: one with a working codec and a
    policy library that is never consulted in override mode, one with a
    response fresh until second 3600, one whose encoder fails, one whose
    decoder fails. *)
Definition lib : Lib :=
  Sim.lib (Sim.ccReason 1) Sim.marshalBody Sim.unmarshalBody.

Definition libFresh : Lib :=
  Sim.lib (Sim.ccFresh (3600 * time.Second)) Sim.marshalBody Sim.unmarshalBody.

Definition libNoEncode : Lib :=
  Sim.lib (Sim.ccReason 1) Sim.marshalFails Sim.unmarshalBody.

Definition libNoDecode : Lib :=
  Sim.lib (Sim.ccReason 1) Sim.marshalBody Sim.unmarshalFails.

(** A store that holds [b] under [key] until second 60. *)
Definition storeWith (key : string) (b : bytes) : Sim.MemStore :=
  {| Sim.clock := 0; Sim.entries := {[ key := (b, 60 * time.Second) ]} |}.

End Scenario.

(** ** Further descriptions, for the properties of the whole file *)

(** The configuration [c] with another storage path. *)
Definition withPath (path : string) (c : Config) : Config := {|
  Path := path;
  MaxExpiry := MaxExpiry c;
  Cleanup := Cleanup c;
  AddStatusHeader := AddStatusHeader c;
  AllowedHTTPMethods := AllowedHTTPMethods c;
  SkipCacheControlHeader := SkipCacheControlHeader c;
  DefaultTTL := DefaultTTL c;
  URIs := URIs c
|}.

(** A handler script that never calls [WriteHeader]. *)
Fixpoint noWriteHeader (sc : http.Script) : Prop :=
  match sc with
  | http.Done => True
  | http.ReadHeader k => forall h, noWriteHeader (k h)
  | http.OnHeader _ k => noWriteHeader k
  | http.CallWriteHeader _ _ => False
  | http.CallWrite _ k => forall res, noWriteHeader (k res)
  end.

(** A handler script that calls [WriteHeader] once, with the code [c], and
    before it writes any body. *)
Fixpoint writesHeaderOnce (c : Z) (sc : http.Script) : Prop :=
  match sc with
  | http.Done => False
  | http.ReadHeader k => forall h, writesHeaderOnce c (k h)
  | http.OnHeader _ k => writesHeaderOnce c k
  | http.CallWriteHeader c' k => c' = c /\ noWriteHeader k
  | http.CallWrite _ _ => False
  end.

(** The reads of the store among the events, in order. *)
Definition gets (tr : list Event) : list string :=
  omap (fun e => match e with EvGet key => Some key | _ => None end) tr.

(** The TTLs of the rules of [m] that match the URL of [r]. *)
Definition matchingTTLs (m : cache) (r : http.Request) : list Z :=
  (filter (fun e => regexp.MatchString e.1 (url.String (http.URL r)) = true)
          (uriMap m)).*2.

(** The values that the stored header entries carry for the canonical key
    [ckey], in the order of the entries. *)
Definition storedValues `{L : Lib} (ckey : string)
    (entries : list (string * list string)) : list string :=
  concat (filter (fun e => CanonicalHeaderKey e.1 = ckey) entries).*2.

(** The rules of a configuration whose patterns compile, with their TTLs,
    in the order of the configuration. *)
Definition compiled `{L : Lib} (uris : list Uri) : list (regexp.Regexp * Z) :=
  omap (fun uri => match regexp_Compile (Pattern uri) with
                   | inr re => Some (re, TTL uri)
                   | inl _ => None
                   end) uris.

#[global] Instance byte_eq_decision : EqDecision byte := byte_eq_dec.

(** A codec that knows one entry: it encodes every entry as [b] and decodes
    [b], and nothing else, as [d]. *)
Definition marshalAs (b : bytes) (d : cacheData) : bytes * option error :=
  (b, None).

Definition unmarshalAs (b : bytes) (d : cacheData) (b' : bytes)
  : error + cacheData :=
  if decide (b' = b) then inr d else inl "invalid character".

(** An entry as a request for [/api/items] leaves it, the bytes that stand
    for it, and a library whose codec maps the one to the other. *)
Definition storedEntry : cacheData := {|
  ExpiresAt := 31 * time.Second;
  Status := 200;
  Headers := {[ "Cache-Status" := ["miss"] ]};
  Body := Scenario.ok
|}.

Definition storedBytes : bytes := ["{"%byte; "}"%byte].

Definition libStored : Lib :=
  Sim.lib (Sim.ccReason 1) (marshalAs storedBytes)
          (unmarshalAs storedBytes storedEntry).

(** Case analysis on every comparison of durations in the goal. *)
Ltac clamp_cases :=
  repeat match goal with
         | |- context [Z.ltb ?a ?b] => destruct (Z.ltb_spec a b)
         end.

(** * Properties *)

(** ** Durations *)

Lemma wrap_small (z : Z) :
  time.minDuration <= z <= time.maxDuration -> time.wrap z = z.
Proof.
  unfold time.wrap, time.minDuration, time.maxDuration. intros Hz.
  rewrite Z.mod_small; lia.
Qed.

(** Below 2^63 nanoseconds (some 292 years) [time.seconds] is the plain
    product. *)
Lemma seconds_small (n : Z) :
  -9223372036 <= n <= 9223372036 -> time.seconds n = n * 1000000000.
Proof.
  intros Hn. unfold time.seconds, time.mul, time.Second.
  rewrite (wrap_small n) by (unfold time.minDuration, time.maxDuration; lia).
  apply wrap_small. unfold time.minDuration, time.maxDuration. lia.
Qed.

Lemma sets_app (tr1 tr2 : list Event) : sets (tr1 ++ tr2) = sets tr1 ++ sets tr2.
Proof. apply omap_app. Qed.

Lemma sets_EvSet (key : string) (b : bytes) (ttl : time.Duration) (tr : list Event) :
  sets (EvSet key b ttl :: tr) = (key, b, ttl) :: sets tr.
Proof. reflexivity. Qed.

Lemma nexts_app (tr1 tr2 : list Event) : nexts (tr1 ++ tr2) = nexts tr1 ++ nexts tr2.
Proof. apply omap_app. Qed.

Section Policy.

Context `{L : Lib} {W : Type} `{RW : !http.ResponseWriter W}.

Implicit Types (m : cache) (r : http.Request) (s : Sys W).

(** The loop over the rules returns at the first entry that matches. *)
Lemma matchURIs_find m requestUrl entries :
  matchURIs m requestUrl entries =
  match list_find (fun e => regexp.MatchString e.1 requestUrl = true) entries with
  | Some (_, (_, ttl)) => Some (Z.min (time.seconds ttl) (maximumExpiry m), true)
  | None => None
  end.
Proof.
  induction entries as [|[re ttl] entries IH]; [reflexivity|].
  cbn [matchURIs list_find]. case_decide as Hre; cbn [fst] in Hre.
  - rewrite Hre. unfold maximumExpiry. clamp_cases; do 2 f_equal; lia.
  - apply not_true_is_false in Hre. rewrite Hre, IH.
    destruct (list_find _ entries) as [[i [re' ttl']]|]; reflexivity.
Qed.

(** [cacheable] decides by the candidate expiry alone: it clamps the
    candidate when there is one and refuses otherwise. *)
Lemma cacheable_candidate m r status s :
  (cacheable m r status s).1 =
  match candidateExpiry m r status s with
  | Some c => (Z.min c (maximumExpiry m), true)
  | None => (0, false)
  end.
Proof.
  unfold cacheable, candidateExpiry.
  destruct (SkipCacheControlHeader (cfg m)) eqn:Hskip; cbn [negb].
  - unfold bind, range, tick, ret; cbn.
    rewrite matchURIs_find.
    destruct (list_find _ _) as [[i [re ttl]]|]; [reflexivity|].
    case_decide as Hd.
    + apply Z.ltb_lt in Hd. rewrite Hd. unfold maximumExpiry.
      clamp_cases; cbn; f_equal; lia.
    + apply Z.ltb_nlt in Hd. rewrite Hd. reflexivity.
  - unfold bind, getWriter; cbn.
    destruct (CachableResponseWriter r status (http.w_Header (writer s)))
      as [[reasons expireBy] err].
    destruct err as [e|]; [reflexivity|].
    destruct reasons as [|reason reasons]; [|reflexivity].
    cbn. unfold bind, Now, tick, ret, maximumExpiry; cbn.
    clamp_cases; cbn; f_equal; lia.
Qed.

(** The policy reads the clock or walks the map at most once and touches
    nothing else. *)
Lemma cacheable_state m r status s :
  writer (cacheable m r status s).2 = writer s /\
  fcache (cacheable m r status s).2 = fcache s /\
  trace (cacheable m r status s).2 = trace s.
Proof.
  unfold cacheable.
  destruct (SkipCacheControlHeader (cfg m)); cbn [negb].
  - unfold bind, range, tick, ret; cbn.
    destruct (matchURIs _ _ _) as [res|]; [done|].
    destruct (0 <? DefaultTTL (cfg m)); done.
  - unfold bind, getWriter; cbn.
    destruct (CachableResponseWriter r status (http.w_Header (writer s)))
      as [[reasons expireBy] err].
    destruct (_ || _); done.
Qed.

(** Within the range of [int64] nanoseconds the code computes the
    candidate of the specification. *)
Lemma candidateExpiry_spec m r status s :
  (forall c, candidateExpirySpec m r status s = Some c ->
             time.minDuration <= c <= time.maxDuration) ->
  candidateExpiry m r status s = candidateExpirySpec m r status s.
Proof.
  unfold candidateExpiry, candidateExpirySpec, time.minDuration,
    time.maxDuration, time.Second.
  destruct (SkipCacheControlHeader (cfg m)).
  - destruct (list_find _ _) as [[i [re ttl]]|].
    + intros Hc. specialize (Hc _ eq_refl). rewrite seconds_small by lia.
      reflexivity.
    + case_decide; [|reflexivity].
      intros Hc. specialize (Hc _ eq_refl). rewrite seconds_small by lia.
      reflexivity.
  - destruct (CachableResponseWriter r status (http.w_Header (writer s)))
      as [[reasons expireBy] err].
    destruct err as [e|]; [reflexivity|].
    destruct reasons as [|reason reasons]; [|reflexivity].
    intros Hc. specialize (Hc _ eq_refl). f_equal.
    unfold time.Until, time.Sub, time.minDuration, time.maxDuration. lia.
Qed.

Lemma maximumExpiry_spec m :
  1 < MaxExpiry (cfg m) <= 9223372036 ->
  maximumExpiry m = MaxExpiry (cfg m) * time.Second.
Proof. intros Hmax. unfold maximumExpiry. apply seconds_small. lia. Qed.

End Policy.

(** ** The request path *)

Section Request.

Context `{L : Lib} {W : Type} `{RW : !http.ResponseWriter W}.

Implicit Types (m : cache) (r : http.Request) (s : Sys W).

Lemma lookup_miss m key s e fc :
  fileCache_Get key (fcache s) = (inl e, fc) ->
  lookup m key s = (Some cacheMissStatus, afterGet key fc s).
Proof.
  intros Hget. unfold lookup, bind, cache_Get, emit; cbn.
  rewrite Hget. reflexivity.
Qed.

Lemma lookup_undecodable m key s b e fc :
  fileCache_Get key (fcache s) = (inr b, fc) ->
  json_Unmarshal b = inl e ->
  lookup m key s = (Some cacheErrorStatus, afterGet key fc s).
Proof.
  intros Hget Hdec. unfold lookup, bind, cache_Get, emit; cbn.
  rewrite Hget, Hdec. reflexivity.
Qed.

(** Whatever the store answers, the lookup is one [Get] and no other
    event. *)
Lemma lookup_trace m key s :
  trace (lookup m key s).2 = trace s ++ [EvGet key].
Proof.
  unfold lookup, bind, cache_Get, emit; cbn.
  destruct (fileCache_Get key (fcache s)) as [[e|b] fc]; [reflexivity|].
  destruct (json_Unmarshal b) as [e|data]; [reflexivity|].
  unfold range, bind, tick, ret, onWriter; cbn.
  destruct (AddStatusHeader (cfg m)); reflexivity.
Qed.

Lemma lookup_fcache m key s :
  fcache (lookup m key s).2 = (fileCache_Get key (fcache s)).2.
Proof.
  unfold lookup, bind, cache_Get, emit; cbn.
  destruct (fileCache_Get key (fcache s)) as [[e|b] fc]; [reflexivity|].
  destruct (json_Unmarshal b) as [e|data]; [reflexivity|].
  unfold range, bind, tick, ret, onWriter; cbn.
  destruct (AddStatusHeader (cfg m)); reflexivity.
Qed.

(** The capture forwards every call: what reaches the wrapped writer is
    what the handler would have written to it directly. *)
Lemma run_forwards (sc : http.Script) (rw : responseWriter W) :
  ResponseWriter (http.run sc rw) = http.run sc (ResponseWriter rw).
Proof.
  revert rw. induction sc as [|k IH|f k IH|c k IH|p k IH]; intros rw; cbn.
  - reflexivity.
  - apply IH.
  - rewrite IH. reflexivity.
  - rewrite IH. reflexivity.
  - unfold responseWriter_Write.
    destruct (http.w_Write p (ResponseWriter rw)) as [res w]. apply IH.
Qed.

Lemma run_body (sc : http.Script) (rw : responseWriter W) :
  body (http.run sc rw) = body rw ++ written sc (ResponseWriter rw).
Proof.
  revert rw. induction sc as [|k IH|f k IH|c k IH|p k IH]; intros rw; cbn.
  - rewrite app_nil_r. reflexivity.
  - apply IH.
  - rewrite IH. reflexivity.
  - rewrite IH. reflexivity.
  - unfold responseWriter_Write.
    destruct (http.w_Write p (ResponseWriter rw)) as [res w].
    rewrite IH. cbn. rewrite app_assoc. reflexivity.
Qed.

Lemma run_status (sc : http.Script) (rw : responseWriter W) :
  status (http.run sc rw) = lastStatus sc (ResponseWriter rw) (status rw).
Proof.
  revert rw. induction sc as [|k IH|f k IH|c k IH|p k IH]; intros rw; cbn.
  - reflexivity.
  - apply IH.
  - rewrite IH. reflexivity.
  - rewrite IH. reflexivity.
  - unfold responseWriter_Write.
    destruct (http.w_Write p (ResponseWriter rw)) as [res w].
    rewrite IH. reflexivity.
Qed.

Lemma serveNext_state m r s :
  writer (serveNext m r s).2 = http.run (next m r) (writer s) /\
  fcache (serveNext m r s).2 = fcache s /\
  ticks (serveNext m r s).2 = ticks s /\
  trace (serveNext m r s).2 = trace s ++ [EvNext r].
Proof.
  unfold serveNext, bind, emit, getWriter, onWriter, ret; cbn.
  rewrite run_forwards. done.
Qed.

Lemma serveNext_capture m r s :
  status (serveNext m r s).1 = lastStatus (next m r) (writer s) 0 /\
  body (serveNext m r s).1 = written (next m r) (writer s).
Proof.
  unfold serveNext, bind, emit, getWriter, onWriter, ret; cbn.
  rewrite run_status, run_body. done.
Qed.

Lemma announce_state m cs s :
  fcache (announce m cs s).2 = fcache s /\
  ticks (announce m cs s).2 = ticks s /\
  trace (announce m cs s).2 = trace s.
Proof. unfold announce. destruct (AddStatusHeader (cfg m)); done. Qed.

(** The events of a write-back: a line for a failed encoding, the [Set],
    a line for a failed [Set]. *)
Lemma writeBack_trace m key rw expiry s :
  let '(b, err) := json_Marshal (entry rw expiry s) in
  exists after,
    trace (writeBack m key rw expiry s).2 =
      trace s
      ++ match err with
         | Some e => [EvLog ("Error serializing cache item: " +:+ e)]
         | None => []
         end
      ++ EvSet key b expiry :: after
    /\ sets after = []
    /\ fcache (writeBack m key rw expiry s).2 =
         (fileCache_Set key b expiry (fcache s)).2.
Proof.
  unfold writeBack, entry, bind, Now, tick, getWriter, ret; cbn.
  destruct (json_Marshal _) as [b err].
  unfold bind, cache_Set, logPrintf, emit, ret; cbn.
  destruct err as [e|]; cbn;
    destruct (fileCache_Set key b expiry (fcache s)) as [[e'|] fc]; cbn;
    rewrite <- ?app_assoc; cbn; eexists; (split; [reflexivity|done]).
Qed.

(** A write-back leaves the writer alone and does not call the handler. *)
Lemma writeBack_writer m key rw expiry s :
  writer (writeBack m key rw expiry s).2 = writer s /\
  nexts (trace (writeBack m key rw expiry s).2) = nexts (trace s).
Proof.
  unfold writeBack, bind, Now, tick, getWriter, ret; cbn.
  destruct (json_Marshal _) as [b err].
  unfold bind, cache_Set, logPrintf, emit, ret; cbn.
  destruct err as [e|]; cbn;
    destruct (fileCache_Set key b expiry (fcache s)) as [[e'|] fc]; cbn;
    rewrite ?nexts_app; cbn; rewrite ?app_nil_r; done.
Qed.

Lemma passThrough_unfold m r key cs s1 :
  passThrough m r key cs s1 =
  let '(rw, s2) := serveNext m r (announce m cs s1).2 in
  let '(expiry, ok, s3) := cacheable m r (status rw) s2 in
  if ok then writeBack m key rw expiry s3 else (tt, s3).
Proof.
  unfold passThrough, bind. destruct (announce m cs s1) as [[] s1'].
  cbn [snd]. destruct (serveNext m r s1') as [rw s2].
  destruct (cacheable m r (status rw) s2) as [[expiry ok] s3].
  destruct ok; reflexivity.
Qed.

(** [ServeHTTP] past a lookup that did not serve the response. *)
Lemma ServeHTTP_passthrough m r s cs s1 :
  lookup m (cacheKey r) s = (Some cs, s1) ->
  ServeHTTP m r s =
  let '(rw, s2) := serveNext m r (announce m cs s1).2 in
  let '(expiry, ok, s3) := cacheable m r (status rw) s2 in
  if ok then writeBack m (cacheKey r) rw expiry s3 else (tt, s3).
Proof.
  intros Hlook. unfold ServeHTTP, bind at 1. rewrite Hlook.
  apply passThrough_unfold.
Qed.

(** A response served from the store ends the request. *)
Lemma ServeHTTP_served m r s s1 :
  lookup m (cacheKey r) s = (None, s1) -> ServeHTTP m r s = (tt, s1).
Proof. intros Hlook. unfold ServeHTTP, bind. rewrite Hlook. reflexivity. Qed.

End Request.

(** ** Admission: the expiry and the write to the store *)

Section Admission.

Context `{L : Lib} {W : Type} `{RW : !http.ResponseWriter W}.

Implicit Types (m : cache) (r : http.Request) (s : Sys W).

(** Up to the policy decision a request that is not served from the store
    makes one [Get] and one call of the wrapped handler; only the [Get]
    touches the store. *)
Lemma admission_state m r s cs s1 rw s2 res s3 :
  lookup m (cacheKey r) s = (Some cs, s1) ->
  serveNext m r (announce m cs s1).2 = (rw, s2) ->
  cacheable m r (status rw) s2 = (res, s3) ->
  trace s3 = trace s ++ [EvGet (cacheKey r); EvNext r] /\
  fcache s3 = (fileCache_Get (cacheKey r) (fcache s)).2 /\
  writer s3 = http.run (next m r) (writer (announce m cs s1).2).
Proof.
  intros Hlook Hnext Hpol.
  pose proof (lookup_trace m (cacheKey r) s) as Ht1.
  pose proof (lookup_fcache m (cacheKey r) s) as Hf1.
  rewrite Hlook in Ht1, Hf1; cbn [snd] in Ht1, Hf1.
  destruct (announce_state m cs s1) as (Hf2 & _ & Ht2).
  destruct (serveNext_state m r (announce m cs s1).2) as (Hw3 & Hf3 & _ & Ht3).
  rewrite Hnext in Hw3, Hf3, Ht3; cbn [snd] in Hw3, Hf3, Ht3.
  destruct (cacheable_state m r (status rw) s2) as (Hw4 & Hf4 & Ht4).
  rewrite Hpol in Hw4, Hf4, Ht4; cbn [snd] in Hw4, Hf4, Ht4.
  rewrite Hw4, Hf4, Ht4, Hw3, Hf3, Ht3, Hf2, Ht2, Hf1, Ht1.
  rewrite <- app_assoc. done.
Qed.

(** A request that is passed through makes one [Set], with the expiry the
    policy returned, if the policy deems the response cacheable, and none
    otherwise. *)
Lemma admission_sets m r s cs s1 rw s2 expiry (ok : bool) s3 :
  lookup m (cacheKey r) s = (Some cs, s1) ->
  serveNext m r (announce m cs s1).2 = (rw, s2) ->
  cacheable m r (status rw) s2 = (expiry, ok, s3) ->
  sets (trace (ServeHTTP m r s).2) =
  sets (trace s) ++
  if ok then [(cacheKey r, (json_Marshal (entry rw expiry s3)).1, expiry)]
  else [].
Proof.
  intros Hlook Hnext Hpol.
  destruct (admission_state _ _ _ _ _ _ _ _ _ Hlook Hnext Hpol) as (Ht & _ & _).
  rewrite (ServeHTTP_passthrough _ _ _ _ _ Hlook), Hnext, Hpol.
  destruct ok.
  - pose proof (writeBack_trace m (cacheKey r) rw expiry s3) as Hwb.
    destruct (json_Marshal _) as [b err].
    destruct Hwb as (after & -> & Hafter & _).
    rewrite Ht, !sets_app, sets_EvSet, Hafter.
    destruct err; cbn; rewrite ?app_nil_r; reflexivity.
  - cbn. rewrite Ht, sets_app. cbn. reflexivity.
Qed.

(** C1 (amended).  With a maximum expiry of at most 9223372036 seconds and
    a candidate expiry that fits in an [int64] count of nanoseconds: when a
    request is passed through and the policy deems the response cacheable,
    the expiry it returns is the minimum of the candidate expiry and the
    configured maximum, and that expiry is the TTL of the one [Set] the
    request makes; the policy answers "not cacheable" exactly when there is
    no candidate, and then the request makes no [Set].  The sign of the
    candidate plays no part. *)
Theorem cacheable_expiry_is_clamped_candidate
    m r s cs s1 rw s2 expiry (ok : bool) s3 :
  lookup m (cacheKey r) s = (Some cs, s1) ->
  serveNext m r (announce m cs s1).2 = (rw, s2) ->
  cacheable m r (status rw) s2 = (expiry, ok, s3) ->
  1 < MaxExpiry (cfg m) <= 9223372036 ->
  (forall c, candidateExpirySpec m r (status rw) s2 = Some c ->
             time.minDuration <= c <= time.maxDuration) ->
  if ok then
    (exists c, candidateExpirySpec m r (status rw) s2 = Some c /\
               expiry = Z.min c (MaxExpiry (cfg m) * time.Second)) /\
    (exists b, sets (trace (ServeHTTP m r s).2) =
               sets (trace s) ++ [(cacheKey r, b, expiry)])
  else
    candidateExpirySpec m r (status rw) s2 = None /\ expiry = 0 /\
    sets (trace (ServeHTTP m r s).2) = sets (trace s).
Proof.
  intros Hlook Hnext Hpol Hmax Hfits.
  pose proof (admission_sets _ _ _ _ _ _ _ _ _ _ Hlook Hnext Hpol) as Hsets.
  pose proof (cacheable_candidate m r (status rw) s2) as Hcand.
  rewrite Hpol, (candidateExpiry_spec _ _ _ _ Hfits),
    (maximumExpiry_spec _ Hmax) in Hcand.
  cbn [fst] in Hcand.
  destruct (candidateExpirySpec m r (status rw) s2) as [c|];
    injection Hcand as -> ->; rewrite ?app_nil_r in Hsets; eauto.
Qed.

End Admission.

(** Scenario A: a GET for [/api/items] under the rule [("/api/", 30)] with
    maximum expiry 300 is stored for 30 seconds.  Scenario D: in standard
    mode a response fresh for 3600 seconds under maximum expiry 60 is stored
    for 60 seconds. *)
Lemma cacheable_expiry_is_clamped_candidate_witness :
  let r := Scenario.request "GET" "example.com" "/api/items" "" in
  (let m := Scenario.plugin (L := Scenario.lib) Scenario.explicit200
              (Scenario.override "/api/" 30 0) in
   let s := Sim.start (L := Scenario.lib) Scenario.emptyStore in
   let s1 := (lookup m (cacheKey r) s).2 in
   let next := serveNext m r (announce m cacheMissStatus s1).2 in
   (exists c, candidateExpirySpec m r (status next.1) next.2 = Some c /\
              30 * time.Second = Z.min c (MaxExpiry (cfg m) * time.Second)) /\
   (exists b, sets (trace (ServeHTTP m r s).2) =
              sets (trace s) ++ [(cacheKey r, b, 30 * time.Second)])) /\
  (let m := Scenario.plugin (L := Scenario.libFresh) Scenario.explicit200
              (Scenario.standard 60) in
   let s := Sim.start (L := Scenario.libFresh) Scenario.emptyStore in
   let s1 := (lookup m (cacheKey r) s).2 in
   let next := serveNext m r (announce m cacheMissStatus s1).2 in
   (exists c, candidateExpirySpec m r (status next.1) next.2 = Some c /\
              60 * time.Second = Z.min c (MaxExpiry (cfg m) * time.Second)) /\
   (exists b, sets (trace (ServeHTTP m r s).2) =
              sets (trace s) ++ [(cacheKey r, b, 60 * time.Second)])).
Proof.
  intros r. split.
  - intros m s s1 next.
    apply (cacheable_expiry_is_clamped_candidate
             m r s cacheMissStatus s1 next.1 next.2 (30 * time.Second) true
             (cacheable m r (status next.1) next.2).2);
      [vm_compute; reflexivity | vm_compute; reflexivity
      | vm_compute; reflexivity | cbn; lia |].
    intros c Hc. vm_compute in Hc. injection Hc as <-.
    vm_compute. split; discriminate.
  - intros m s s1 next.
    apply (cacheable_expiry_is_clamped_candidate
             m r s cacheMissStatus s1 next.1 next.2 (60 * time.Second) true
             (cacheable m r (status next.1) next.2).2);
      [vm_compute; reflexivity | vm_compute; reflexivity
      | vm_compute; reflexivity | cbn; lia |].
    intros c Hc. vm_compute in Hc. injection Hc as <-.
    vm_compute. split; discriminate.
Defined.

(** C1, as stated, fails: a matching rule with TTL 0 gives the candidate 0,
    which is 0 after clamping, and yet the policy answers "cacheable" and
    the response is handed to the store with TTL 0. *)
Lemma nonpositive_expiry_is_admitted :
  let m := Scenario.plugin (L := Scenario.lib) Scenario.explicit200
             (Scenario.override "/api/" 0 0) in
  let r := Scenario.request "GET" "example.com" "/api/items" "" in
  let s := Sim.start (L := Scenario.lib) Scenario.emptyStore in
  let s1 := (lookup m (cacheKey r) s).2 in
  let next := serveNext m r (announce m cacheMissStatus s1).2 in
  candidateExpiry m r (status next.1) next.2 = Some 0 /\
  Z.min 0 (maximumExpiry m) <= 0 /\
  (cacheable m r (status next.1) next.2).1 = (0, true) /\
  sets (trace (ServeHTTP m r s).2) = [("GETexample.com/api/items", Scenario.ok, 0)].
Proof. vm_compute. repeat split; discriminate. Qed.

(** Beyond the bounds the conversion to nanoseconds wraps: a matching rule
    with a TTL of 9223372037 seconds, under a maximum expiry of 300
    seconds, is cacheable for a negative duration, which is what [Set]
    receives. *)
Lemma overflowing_ttl_wraps :
  let m := Scenario.plugin (L := Scenario.lib) Scenario.explicit200
             (Scenario.override "/api/" 9223372037 0) in
  let r := Scenario.request "GET" "example.com" "/api/items" "" in
  let s := Sim.start (L := Scenario.lib) Scenario.emptyStore in
  let s1 := (lookup m (cacheKey r) s).2 in
  let next := serveNext m r (announce m cacheMissStatus s1).2 in
  candidateExpirySpec m r (status next.1) next.2 =
    Some (9223372037 * time.Second) /\
  Z.min (9223372037 * time.Second) (MaxExpiry (cfg m) * time.Second) =
    300 * time.Second /\
  (cacheable m r (status next.1) next.2).1 = (-9223372036709551616, true) /\
  sets (trace (ServeHTTP m r s).2) =
    [("GETexample.com/api/items", Scenario.ok, -9223372036709551616)].
Proof. vm_compute. repeat split; discriminate. Qed.

(** ** Override mode *)

Section Override.

Context `{L : Lib} {W : Type} `{RW : !http.ResponseWriter W}.

Implicit Types (m : cache) (r : http.Request) (s : Sys W).

(** When no rule matches, the candidate is the default TTL if that is
    greater than zero, in whatever order the rules are visited. *)
Lemma candidate_unmatched m r status s :
  SkipCacheControlHeader (cfg m) = true ->
  unmatched m r ->
  candidateExpiry m r status s =
  if decide (0 < DefaultTTL (cfg m))
  then Some (time.seconds (DefaultTTL (cfg m))) else None.
Proof.
  intros Hskip Hnone. unfold candidateExpiry. rewrite Hskip.
  replace (list_find _ _) with (@None (nat * (regexp.Regexp * Z))); [reflexivity|].
  symmetry. apply list_find_None.
  unfold unmatched in Hnone. rewrite <- (rangeOrder_perm (ticks s)) in Hnone.
  eapply Forall_impl; [exact Hnone|]. intros e He. cbn in He. congruence.
Qed.

(** A request for which the policy answers "not cacheable" in every state
    writes nothing to the store, whether it is served from the store or
    passed through. *)
Lemma ServeHTTP_refused m r :
  (forall status s, (cacheable m r status s).1.2 = false) ->
  forall s, sets (trace (ServeHTTP m r s).2) = sets (trace s).
Proof.
  intros Hno s.
  destruct (lookup m (cacheKey r) s) as [[cs|] s1] eqn:Hlook.
  - rewrite (ServeHTTP_passthrough _ _ _ _ _ Hlook).
    destruct (serveNext m r (announce m cs s1).2) as [rw s2] eqn:Hnext.
    destruct (cacheable m r (status rw) s2) as [[expiry ok] s3] eqn:Hpol.
    destruct (admission_state _ _ _ _ _ _ _ _ _ Hlook Hnext Hpol) as (Ht & _ & _).
    specialize (Hno (status rw) s2). rewrite Hpol in Hno. cbn in Hno. subst ok.
    cbn. rewrite Ht, sets_app. cbn. apply app_nil_r.
  - rewrite (ServeHTTP_served _ _ _ _ Hlook). cbn.
    pose proof (lookup_trace m (cacheKey r) s) as Ht. rewrite Hlook in Ht.
    cbn in Ht. rewrite Ht, sets_app. cbn. apply app_nil_r.
Qed.

(** C5 (amended).  In override mode, with a default TTL and a maximum
    expiry of at most 9223372036 seconds, for a request whose URL matches no
    rule: with a default TTL greater than zero the candidate expiry is the
    default TTL and the policy answers "cacheable" (with the candidate
    clamped to the maximum); with a default TTL of zero or less the policy
    answers "not cacheable", whatever the status of the upstream response,
    and the request never writes to the store. *)
Theorem default_ttl_when_no_rule_matches m r status s :
  SkipCacheControlHeader (cfg m) = true ->
  unmatched m r ->
  DefaultTTL (cfg m) <= 9223372036 ->
  1 < MaxExpiry (cfg m) <= 9223372036 ->
  match decide (0 < DefaultTTL (cfg m)) with
  | left _ =>
      candidateExpirySpec m r status s =
        Some (DefaultTTL (cfg m) * time.Second) /\
      (cacheable m r status s).1 =
        (Z.min (DefaultTTL (cfg m) * time.Second)
               (MaxExpiry (cfg m) * time.Second), true)
  | right _ =>
      candidateExpirySpec m r status s = None /\
      (cacheable m r status s).1 = (0, false) /\
      forall s0 : Sys W, sets (trace (ServeHTTP m r s0).2) = sets (trace s0)
  end.
Proof.
  intros Hskip Hnone Hdef Hmax.
  pose proof (cacheable_candidate m r status s) as Hpol.
  pose proof (candidate_unmatched _ _ status s Hskip Hnone) as Hcand.
  assert (Hspec : candidateExpirySpec m r status s =
                  if decide (0 < DefaultTTL (cfg m))
                  then Some (DefaultTTL (cfg m) * time.Second) else None).
  { unfold candidateExpirySpec. rewrite Hskip.
    replace (list_find _ _) with (@None (nat * (regexp.Regexp * Z)));
      [reflexivity|].
    symmetry. apply list_find_None.
    unfold unmatched in Hnone. rewrite <- (rangeOrder_perm (ticks s)) in Hnone.
    eapply Forall_impl; [exact Hnone|]. intros e He. cbn in He. congruence. }
  rewrite Hcand, (maximumExpiry_spec _ Hmax) in Hpol. rewrite Hspec.
  destruct (decide (0 < DefaultTTL (cfg m))) as [Hpos|Hneg].
  - split; [reflexivity|]. rewrite Hpol, seconds_small by lia. reflexivity.
  - repeat split; [exact Hpol|].
    apply ServeHTTP_refused. intros status' s'.
    rewrite cacheable_candidate, (candidate_unmatched _ _ _ _ Hskip Hnone).
    rewrite decide_False by exact Hneg. reflexivity.
Qed.

(** C7 (amended).  In override mode the rules are matched against the
    string form of the request URL, path and query together: requests
    with the same URL string match the same rules and get the same answer
    from the policy, whatever else differs between them. *)
Theorem rule_matching_reads_url_string m r1 r2 status s :
  SkipCacheControlHeader (cfg m) = true ->
  url.String (http.URL r1) = url.String (http.URL r2) ->
  filter (fun e => regexp.MatchString e.1 (url.String (http.URL r1)) = true)
         (uriMap m) =
  filter (fun e => regexp.MatchString e.1 (url.String (http.URL r2)) = true)
         (uriMap m) /\
  cacheable m r1 status s = cacheable m r2 status s.
Proof.
  intros Hskip Hurl. split.
  - rewrite Hurl. reflexivity.
  - unfold cacheable. rewrite Hskip. cbn [negb]. rewrite Hurl. reflexivity.
Qed.

End Override.

(** Scenario B: default TTL 0 and a request for [/health] that the rule
    [/api/] does not match; and the same with default TTL 60. *)
Lemma default_ttl_when_no_rule_matches_witness :
  let r := Scenario.request "GET" "example.com" "/health" "" in
  let s := Sim.start (L := Scenario.lib) Scenario.emptyStore in
  let m0 := Scenario.plugin (L := Scenario.lib) Scenario.explicit200
              (Scenario.override "/api/" 30 0) in
  let m60 := Scenario.plugin (L := Scenario.lib) Scenario.explicit200
               (Scenario.override "/api/" 30 60) in
  (candidateExpirySpec m0 r 500 s = None /\
   (cacheable m0 r 500 s).1 = (0, false) /\
   forall s0 : Sys (L := Scenario.lib) http.ServerWriter,
     sets (trace (ServeHTTP m0 r s0).2) = sets (trace s0)) /\
  (candidateExpirySpec m60 r 200 s = Some (60 * time.Second) /\
   (cacheable m60 r 200 s).1 = (60 * time.Second, true)).
Proof.
  intros r s m0 m60. split.
  - apply (default_ttl_when_no_rule_matches m0 r 500 s);
      [reflexivity | repeat constructor | cbn; lia | cbn; lia].
  - apply (default_ttl_when_no_rule_matches m60 r 200 s);
      [reflexivity | repeat constructor | cbn; lia | cbn; lia].
Defined.

(** C5, as stated, fails: with a default TTL of 9223372037 seconds, which is
    greater than zero, and a request that matches no rule, the policy
    answers "cacheable" with a negative expiry, not with the default TTL
    (nor with the maximum of 300 seconds that would clamp it), and that
    negative expiry is what [Set] receives. *)
Lemma overflowing_default_ttl_wraps :
  let m := Scenario.plugin (L := Scenario.lib) Scenario.explicit200
             (Scenario.override "/api/" 30 9223372037) in
  let r := Scenario.request "GET" "example.com" "/health" "" in
  let s := Sim.start (L := Scenario.lib) Scenario.emptyStore in
  SkipCacheControlHeader (cfg m) = true /\
  unmatched m r /\
  0 < DefaultTTL (cfg m) /\
  candidateExpirySpec m r 200 s = Some (9223372037 * time.Second) /\
  Z.min (9223372037 * time.Second) (MaxExpiry (cfg m) * time.Second) =
    300 * time.Second /\
  (cacheable m r 200 s).1 = (-9223372036709551616, true) /\
  sets (trace (ServeHTTP m r s).2) =
    [("GETexample.com/health", Scenario.ok, -9223372036709551616)].
Proof.
  split; [reflexivity|]. split; [repeat constructor|].
  split; [reflexivity|]. vm_compute. repeat split; discriminate.
Qed.

(** The rule [^/api$] with requests for [/api] and [/api?page=2]. *)
Lemma rule_matching_reads_url_string_witness :
  let m := Scenario.plugin (L := Scenario.lib) Scenario.explicit200
             (Scenario.override "^/api$" 30 0) in
  let r1 := Scenario.request "GET" "example.com" "/api" "page=2" in
  let r2 := Scenario.request "POST" "example.org" "/api" "page=2" in
  let s := Sim.start (L := Scenario.lib) Scenario.emptyStore in
  filter (fun e => regexp.MatchString e.1 (url.String (http.URL r1)) = true)
         (uriMap m) =
  filter (fun e => regexp.MatchString e.1 (url.String (http.URL r2)) = true)
         (uriMap m) /\
  cacheable m r1 200 s = cacheable m r2 200 s.
Proof.
  intros m r1 r2 s.
  apply (rule_matching_reads_url_string m r1 r2 200 s); reflexivity.
Defined.

(** C7, as stated, fails: two requests with the same path [/api], one
    without query and one with the query [page=2], under the rule [^/api$].
    The first matches the rule and is cacheable for 30 seconds; the second
    matches no rule and is not cacheable. *)
Lemma same_path_different_query_differ :
  let m := Scenario.plugin (L := Scenario.lib) Scenario.explicit200
             (Scenario.override "^/api$" 30 0) in
  let r1 := Scenario.request "GET" "example.com" "/api" "" in
  let r2 := Scenario.request "GET" "example.com" "/api" "page=2" in
  let s := Sim.start (L := Scenario.lib) Scenario.emptyStore in
  url.Path (http.URL r1) = url.Path (http.URL r2) /\
  filter (fun e => regexp.MatchString e.1 (url.String (http.URL r1)) = true)
         (uriMap m) = uriMap m /\
  filter (fun e => regexp.MatchString e.1 (url.String (http.URL r2)) = true)
         (uriMap m) = [] /\
  (cacheable m r1 200 s).1 = (30 * time.Second, true) /\
  (cacheable m r2 200 s).1 = (0, false).
Proof. repeat split; reflexivity. Qed.

(** ** Lookups that fail to decode, and encoders that fail *)

Section Failures.

Context `{L : Lib} {W : Type} `{RW : !http.ResponseWriter W}.

Implicit Types (m : cache) (r : http.Request) (s : Sys W).

(** On a cold miss the request is passed through with the status [miss]. *)
Lemma ServeHTTP_miss m r s e fc :
  fileCache_Get (cacheKey r) (fcache s) = (inl e, fc) ->
  ServeHTTP m r s =
  passThrough m r (cacheKey r) cacheMissStatus (afterGet (cacheKey r) fc s).
Proof.
  intros Hget. unfold ServeHTTP, bind.
  rewrite (lookup_miss _ _ _ _ _ Hget). reflexivity.
Qed.

(** Without the diagnostic header the status found by the lookup is not
    used. *)
Lemma passThrough_status_unused m r key cs cs' s :
  AddStatusHeader (cfg m) = false ->
  passThrough m r key cs s = passThrough m r key cs' s.
Proof.
  intros Hoff. unfold passThrough, announce. rewrite Hoff. reflexivity.
Qed.

(** The wrapped handler is called once on the way through, and its calls
    reach the writer of the client unchanged. *)
Lemma passThrough_next m r key cs s :
  writer (passThrough m r key cs s).2 =
    http.run (next m r) (writer (announce m cs s).2) /\
  nexts (trace (passThrough m r key cs s).2) = nexts (trace s) ++ [r].
Proof.
  rewrite passThrough_unfold.
  destruct (announce_state m cs s) as (_ & _ & Ht1).
  destruct (serveNext_state m r (announce m cs s).2) as (Hw2 & _ & _ & Ht2).
  destruct (serveNext m r (announce m cs s).2) as [rw s2]. cbn [snd] in *.
  destruct (cacheable_state m r (status rw) s2) as (Hw3 & _ & Ht3).
  destruct (cacheable m r (status rw) s2) as [[expiry ok] s3]. cbn [snd] in *.
  destruct (writeBack_writer m key rw expiry s3) as (Hw4 & Hn4).
  destruct ok; cbn [snd].
  - rewrite Hw4, Hn4, Hw3, Hw2, Ht3, Ht2, Ht1, nexts_app. done.
  - rewrite Hw3, Hw2, Ht3, Ht2, Ht1, nexts_app. done.
Qed.

(** C8.  When the stored bytes fail to decode, the request is passed
    through exactly as on a miss, but for the value of the diagnostic
    header ([error] and not [miss]) when that header is enabled: the
    wrapped handler is called once, the writer of the client receives the
    calls of the handler and nothing else, and with the diagnostic header
    off the whole outcome is that of a miss. *)
Theorem undecodable_entry_is_passed_through m r s b e fc :
  fileCache_Get (cacheKey r) (fcache s) = (inr b, fc) ->
  json_Unmarshal b = inl e ->
  ServeHTTP m r s =
    passThrough m r (cacheKey r) cacheErrorStatus (afterGet (cacheKey r) fc s) /\
  nexts (trace (ServeHTTP m r s).2) = nexts (trace s) ++ [r] /\
  writer (ServeHTTP m r s).2 =
    http.run (next m r)
      (if AddStatusHeader (cfg m) then
         http.w_onHeader
           (http.Header_Set (CanonicalHeaderKey cacheHeader) cacheErrorStatus)
           (writer s)
       else writer s) /\
  (AddStatusHeader (cfg m) = false ->
   forall s0 e0,
     fileCache_Get (cacheKey r) (fcache s0) = (inl e0, fc) ->
     writer s0 = writer s -> ticks s0 = ticks s -> trace s0 = trace s ->
     ServeHTTP m r s0 = ServeHTTP m r s).
Proof.
  intros Hget Hdec.
  assert (Hserve : ServeHTTP m r s =
    passThrough m r (cacheKey r) cacheErrorStatus (afterGet (cacheKey r) fc s)).
  { unfold ServeHTTP, bind.
    rewrite (lookup_undecodable _ _ _ _ _ _ Hget Hdec). reflexivity. }
  split; [exact Hserve|]. rewrite Hserve.
  destruct (passThrough_next m r (cacheKey r) cacheErrorStatus
              (afterGet (cacheKey r) fc s)) as (Hw & Hn).
  split; [|split].
  - rewrite Hn. cbn. rewrite nexts_app. cbn. rewrite app_nil_r. reflexivity.
  - rewrite Hw. unfold announce. destruct (AddStatusHeader (cfg m)); reflexivity.
  - intros Hoff s0 e0 Hget0 Hw0 Hk0 Ht0.
    rewrite (ServeHTTP_miss _ _ _ _ _ Hget0).
    rewrite (passThrough_status_unused _ _ _ cacheMissStatus cacheErrorStatus _ Hoff).
    unfold afterGet. rewrite Hw0, Hk0, Ht0. reflexivity.
Qed.

(** C10.  When the policy deems the response cacheable and the encoder
    fails with [e], handing back the bytes [b], the request logs the
    failure and then calls [Set] with the key of the request, those bytes
    and the expiry the policy returned; the store is left as that [Set]
    leaves it. *)
Theorem encode_failure_still_sets m r s cs s1 rw s2 expiry s3 b e :
  lookup m (cacheKey r) s = (Some cs, s1) ->
  serveNext m r (announce m cs s1).2 = (rw, s2) ->
  cacheable m r (status rw) s2 = (expiry, true, s3) ->
  json_Marshal (entry rw expiry s3) = (b, Some e) ->
  exists after,
    trace (ServeHTTP m r s).2 =
      trace s3 ++ EvLog ("Error serializing cache item: " +:+ e)
               :: EvSet (cacheKey r) b expiry :: after /\
    sets after = [] /\
    fcache (ServeHTTP m r s).2 =
      (fileCache_Set (cacheKey r) b expiry (fcache s3)).2.
Proof.
  intros Hlook Hnext Hpol Henc.
  rewrite (ServeHTTP_passthrough _ _ _ _ _ Hlook), Hnext, Hpol.
  pose proof (writeBack_trace m (cacheKey r) rw expiry s3) as Hwb.
  rewrite Henc in Hwb. destruct Hwb as (after & Ht & Hafter & Hfc).
  exists after. rewrite Ht. done.
Qed.

End Failures.

(** A store that holds the single byte [{] under the key of the request,
    with a decoder that rejects it. *)
Lemma undecodable_entry_is_passed_through_witness :
  let m := Scenario.plugin (L := Scenario.libNoDecode) Scenario.explicit200
             (Scenario.quiet (Scenario.override "/api/" 30 0)) in
  let r := Scenario.request "GET" "example.com" "/api/items" "" in
  let fc : @Store Scenario.libNoDecode :=
    Scenario.storeWith "GETexample.com/api/items" ["{"%byte] in
  let s := Sim.start (L := Scenario.libNoDecode) fc in
  ServeHTTP m r s =
    passThrough m r (cacheKey r) cacheErrorStatus (afterGet (cacheKey r) fc s) /\
  nexts (trace (ServeHTTP m r s).2) = nexts (trace s) ++ [r] /\
  writer (ServeHTTP m r s).2 = http.run (next m r) (writer s) /\
  (AddStatusHeader (cfg m) = false ->
   forall s0 e0,
     fileCache_Get (cacheKey r) (fcache s0) = (inl e0, fc) ->
     writer s0 = writer s -> ticks s0 = ticks s -> trace s0 = trace s ->
     ServeHTTP m r s0 = ServeHTTP m r s).
Proof.
  intros m r fc s.
  apply (undecodable_entry_is_passed_through m r s ["{"%byte]
           "unexpected end of JSON input" fc); reflexivity.
Defined.

(** Scenario A with an encoder that fails. *)
Lemma encode_failure_still_sets_witness :
  let m := Scenario.plugin (L := Scenario.libNoEncode) Scenario.explicit200
             (Scenario.override "/api/" 30 0) in
  let r := Scenario.request "GET" "example.com" "/api/items" "" in
  let s := Sim.start (L := Scenario.libNoEncode) Scenario.emptyStore in
  let s1 := (lookup m (cacheKey r) s).2 in
  let next := serveNext m r (announce m cacheMissStatus s1).2 in
  let s3 := (cacheable m r (status next.1) next.2).2 in
  exists after,
    trace (ServeHTTP m r s).2 =
      trace s3 ++ EvLog "Error serializing cache item: json: unsupported value"
               :: EvSet "GETexample.com/api/items" [] (30 * time.Second) :: after /\
    sets after = [] /\
    fcache (ServeHTTP m r s).2 =
      (fileCache_Set (cacheKey r) [] (30 * time.Second) (fcache s3)).2.
Proof.
  intros m r s s1 next s3.
  apply (encode_failure_still_sets m r s cacheMissStatus s1 next.1 next.2
           (30 * time.Second) s3 [] "json: unsupported value");
    vm_compute; reflexivity.
Defined.

(** ** The cache key *)

Lemma append_assoc (s1 s2 s3 : string) :
  (s1 +:+ s2) +:+ s3 = s1 +:+ (s2 +:+ s3).
Proof.
  induction s1 as [|c s1 IH]; [reflexivity|].
  change (String c ((s1 +:+ s2) +:+ s3) = String c (s1 +:+ (s2 +:+ s3))).
  rewrite IH. reflexivity.
Qed.

(** Text moved from the end of the method to the front of the host leaves
    the key as it was. *)
Lemma cacheKey_boundary (method a host path query : string) :
  cacheKey (Scenario.request (method +:+ a) host path query) =
  cacheKey (Scenario.request method (a +:+ host) path query).
Proof.
  unfold cacheKey, Scenario.request.
  cbn [http.Method http.Host http.URL url.Path].
  rewrite !append_assoc. reflexivity.
Qed.

Section Keys.

Context `{L : Lib} {W : Type} `{RW : !http.ResponseWriter W}.

Implicit Types (m : cache) (r : http.Request) (s : Sys W).

(** A request first asks the store for its key. *)
Lemma ServeHTTP_gets_key m r s :
  exists after,
    trace (ServeHTTP m r s).2 = trace s ++ EvGet (cacheKey r) :: after.
Proof.
  pose proof (lookup_trace m (cacheKey r) s) as Ht.
  destruct (lookup m (cacheKey r) s) as [[cs|] s1] eqn:Hlook; cbn in Ht.
  - rewrite (ServeHTTP_passthrough _ _ _ _ _ Hlook).
    destruct (serveNext m r (announce m cs s1).2) as [rw s2] eqn:Hnext.
    destruct (cacheable m r (status rw) s2) as [[expiry ok] s3] eqn:Hpol.
    destruct (admission_state _ _ _ _ _ _ _ _ _ Hlook Hnext Hpol) as (Ht3 & _ & _).
    destruct ok; lazy beta iota.
    + pose proof (writeBack_trace m (cacheKey r) rw expiry s3) as Hwb.
      destruct (json_Marshal _) as [b err].
      destruct Hwb as (after & -> & _ & _). rewrite Ht3, <- app_assoc.
      cbn. eauto.
    + cbn [snd]. rewrite Ht3. cbn. eauto.
  - rewrite (ServeHTTP_served _ _ _ _ Hlook). cbn. rewrite Ht. eauto.
Qed.

(** What a request writes to the store, it writes under its key. *)
Lemma ServeHTTP_sets_key m r s :
  exists written,
    sets (trace (ServeHTTP m r s).2) = sets (trace s) ++ written /\
    Forall (fun '(key, _, _) => key = cacheKey r) written.
Proof.
  pose proof (lookup_trace m (cacheKey r) s) as Ht.
  destruct (lookup m (cacheKey r) s) as [[cs|] s1] eqn:Hlook; cbn in Ht.
  - destruct (serveNext m r (announce m cs s1).2) as [rw s2] eqn:Hnext.
    destruct (cacheable m r (status rw) s2) as [[expiry ok] s3] eqn:Hpol.
    pose proof (admission_sets _ _ _ _ _ _ _ _ _ _ Hlook Hnext Hpol) as Hsets.
    rewrite Hsets. eexists. split; [reflexivity|].
    destruct ok; repeat constructor.
  - rewrite (ServeHTTP_served _ _ _ _ Hlook). cbn. rewrite Ht, sets_app. cbn.
    exists []. split; [reflexivity|constructor].
Qed.

End Keys.

(** C9.  The cache key is the concatenation of method, host and path with
    nothing between them, so it does not determine the three: the requests
    [GET example.com/api/items] and [GE Texample.com/api/items] differ in
    method and host and have the same key.  Once the response to the first
    is stored, the second is answered from the store with that response,
    and the wrapped handler is not called. *)
Theorem cacheKey_not_injective :
  exists r1 r2 : http.Request,
    (http.Method r1, http.Host r1, url.Path (http.URL r1)) <>
    (http.Method r2, http.Host r2, url.Path (http.URL r2)) /\
    cacheKey r1 = cacheKey r2 /\
    let m := Scenario.plugin (L := Scenario.lib) Scenario.explicit200
               (Scenario.override "/api/" 30 0) in
    let after1 := (ServeHTTP m r1 (Sim.start (L := Scenario.lib) Scenario.emptyStore)).2 in
    let after2 := (ServeHTTP m r2 (Sim.start (L := Scenario.lib) (fcache after1))).2 in
    sets (trace after1) = [(cacheKey r1, Scenario.ok, 30 * time.Second)] /\
    nexts (trace after2) = [] /\
    http.out (writer after2) = Scenario.ok.
Proof.
  exists (Scenario.request "GET" "example.com" "/api/items" ""),
         (Scenario.request "GE" "Texample.com" "/api/items" "").
  split; [discriminate|]. split; [reflexivity|].
  vm_compute. done.
Qed.

(** ** The allow-list of methods *)

Section Methods.

Context `{L : Lib} {W : Type} `{RW : !http.ResponseWriter W}.

Implicit Types (m : cache) (r : http.Request) (s : Sys W).

Lemma matchURIs_allow_list methods m requestUrl entries :
  matchURIs (withAllowedHTTPMethods methods m) requestUrl entries =
  matchURIs m requestUrl entries.
Proof.
  induction entries as [|[re ttl] entries IH]; [reflexivity|].
  cbn [matchURIs]. rewrite IH. reflexivity.
Qed.

Lemma cacheable_allow_list methods m r status s :
  cacheable (withAllowedHTTPMethods methods m) r status s =
  cacheable m r status s.
Proof.
  unfold cacheable. cbn [cfg withAllowedHTTPMethods SkipCacheControlHeader
                         DefaultTTL MaxExpiry uriMap].
  destruct (SkipCacheControlHeader (cfg m)); [|reflexivity].
  cbn [negb]. unfold bind.
  destruct (range (uriMap m) s) as [entries s'].
  rewrite matchURIs_allow_list. reflexivity.
Qed.

(** No step of a request reads [AllowedHTTPMethods]: the request runs the
    same under every allow-list. *)
Lemma ServeHTTP_allow_list methods m r s :
  ServeHTTP (withAllowedHTTPMethods methods m) r s = ServeHTTP m r s.
Proof.
  unfold ServeHTTP, passThrough, bind.
  change (lookup (withAllowedHTTPMethods methods m)) with (lookup m).
  destruct (lookup m (cacheKey r) s) as [[cs|] s1]; [|reflexivity].
  change (announce (withAllowedHTTPMethods methods m)) with (announce m).
  destruct (announce m cs s1) as [[] s1'].
  change (serveNext (withAllowedHTTPMethods methods m)) with (serveNext m).
  destruct (serveNext m r s1') as [rw s2].
  rewrite cacheable_allow_list.
  destruct (cacheable m r (status rw) s2) as [[expiry ok] s3].
  destruct ok; reflexivity.
Qed.

End Methods.

(** C2 fails on the code.  Under the default allow-list [GET], [HEAD], in
    override mode with the rule [("/api/", 30)], the response to a [DELETE]
    of [/api/items] is written to the store under the key of the request,
    where a later [Get] finds it. *)
Theorem disallowed_method_is_stored :
  let m := Scenario.plugin (L := Scenario.lib) Scenario.explicit200
             (Scenario.override "/api/" 30 0) in
  let r := Scenario.request "DELETE" "example.com" "/api/items" "" in
  let after := (ServeHTTP m r (Sim.start (L := Scenario.lib) Scenario.emptyStore)).2 in
  AllowedHTTPMethods (cfg m) = ["GET"; "HEAD"] /\
  (http.Method r ∉ AllowedHTTPMethods (cfg m)) /\
  sets (trace after) =
    [("DELETEexample.com/api/items", Scenario.ok, 30 * time.Second)] /\
  (Sim.Get (cacheKey r) (fcache after)).1 = inr Scenario.ok.
Proof.
  intros m r after. split; [reflexivity|]. split.
  - apply (bool_decide_unpack _). vm_compute. exact I.
  - vm_compute. done.
Qed.

(** ** Construction *)

Section Construction.

Context `{L : Lib}.

(** [New] succeeds exactly when both limits exceed one second and the
    store can be opened. *)
Lemma New_succeeds next cfg name :
  (exists p, New next cfg name = inr p) <->
  1 < MaxExpiry cfg /\ 1 < Cleanup cfg /\
  exists fc, newFileCache (Path cfg) (time.seconds (Cleanup cfg)) = inr fc.
Proof.
  unfold New.
  destruct (Z.leb_spec (MaxExpiry cfg) 1) as [Hmax|Hmax].
  { split; [intros [p Hp]; discriminate | lia]. }
  destruct (Z.leb_spec (Cleanup cfg) 1) as [Hcl|Hcl].
  { split; [intros [p Hp]; discriminate | lia]. }
  destruct (newFileCache _ _) as [e|fc].
  - split; [intros [p Hp]; discriminate | intros (_ & _ & fc & Hfc); discriminate].
  - split; [intros _; eauto | intros _; eauto].
Qed.

(** C3 fails on the code.  A maximum expiry of one second, and likewise a
    sweep interval of one second, is refused, with the message that the
    value must be greater or equal to 1. *)
Theorem New_rejects_one_second (next : http.Handler) (name : string) :
  New next (Scenario.standard 1) name =
    inl "maxExpiry must be greater or equal to 1" /\
  New next {| Path := "/var/cache/traefik"; MaxExpiry := 300; Cleanup := 1;
              AddStatusHeader := true; AllowedHTTPMethods := ["GET"; "HEAD"];
              SkipCacheControlHeader := false; DefaultTTL := 0; URIs := [] |}
      name =
    inl "cleanup must be greater or equal to 1".
Proof. split; reflexivity. Qed.

End Construction.

(** ** The captured status *)

Section Capture.

Context `{L : Lib} {W : Type} `{RW : !http.ResponseWriter W}.

(** A handler that writes a body and never calls [WriteHeader] leaves the
    captured status at the zero value of the field. *)
Lemma serveNext_body_only (m : cache) (r : http.Request) (s : Sys W) p :
  next m r = http.CallWrite p (fun _ => http.Done) ->
  status (serveNext m r s).1 = 0 /\ body (serveNext m r s).1 = p.
Proof.
  intros Hnext. destruct (serveNext_capture m r s) as (-> & ->).
  rewrite Hnext. cbn. destruct (http.w_Write p (writer s)) as [res w].
  cbn. rewrite app_nil_r. done.
Qed.

End Capture.

(** C6 fails on the code.  When the handler writes the body [ok] and never
    sets a status, the client is sent status 200, and the capture holds
    status 0: that is the status passed to the policy and the status of the
    entry given to the encoder, whatever the codec. *)
Theorem body_only_status_is_zero
    (marshal : cacheData -> bytes * option error)
    (unmarshal : bytes -> error + cacheData) :
  let L := Sim.lib (Sim.ccReason 1) marshal unmarshal in
  let m := Scenario.plugin (L := L) Scenario.bodyOnly
             (Scenario.override "/api/" 30 0) in
  let r := Scenario.request "GET" "example.com" "/api/items" "" in
  let s := Sim.start (L := L) Scenario.emptyStore in
  let s1 := (lookup m (cacheKey r) s).2 in
  let rw := (serveNext m r (announce m cacheMissStatus s1).2).1 in
  let after := (ServeHTTP m r s).2 in
  http.sent (writer after) = Some (200, {[ "Cache-Status" := ["miss"] ]}) /\
  http.out (writer after) = Scenario.ok /\
  status rw = 0 /\
  sets (trace after) =
    [(cacheKey r,
      (marshal {| ExpiresAt := 31 * time.Second; Status := 0;
                  Headers := {[ "Cache-Status" := ["miss"] ]};
                  Body := Scenario.ok |}).1,
      30 * time.Second)].
Proof.
  intros L m r s s1 rw after.
  assert (Hget : fileCache_Get (cacheKey r) (fcache s) =
                 (inl Sim.errCacheMiss, fcache s)) by (vm_compute; reflexivity).
  destruct (passThrough_next m r (cacheKey r) cacheMissStatus
              (afterGet (cacheKey r) (fcache s) s)) as (Hw & _).
  rewrite <- (ServeHTTP_miss _ _ _ _ _ Hget) in Hw. fold after in Hw.
  split; [rewrite Hw; vm_compute; reflexivity|].
  split; [rewrite Hw; vm_compute; reflexivity|].
  split; [vm_compute; reflexivity|].
  subst after.
  rewrite (admission_sets m r s cacheMissStatus s1 rw
             (serveNext m r (announce m cacheMissStatus s1).2).2
             (30 * time.Second) true
             (cacheable m r (status rw)
                (serveNext m r (announce m cacheMissStatus s1).2).2).2);
    vm_compute; reflexivity.
Qed.

(** * Further properties of [cache.go] *)

(** ** [New] and [CreateConfig] *)

Section Construction_more.

Context `{L : Lib}.

Lemma compileURIs_acc (uris : list Uri) (acc : list (regexp.Regexp * Z)) :
  compileURIs uris acc = acc ++ compiled uris.
Proof.
  revert acc. induction uris as [|uri uris IH]; intros acc; cbn.
  - rewrite app_nil_r. reflexivity.
  - destruct (regexp_Compile (Pattern uri)) as [e|re].
    + apply IH.
    + rewrite IH, <- app_assoc. reflexivity.
Qed.

(** X1.  [New] answers with an error exactly when the maximum expiry or the
    sweep interval is at most one second or the store cannot be opened, and
    then with the error of the first of these that applies; otherwise it
    hands back the store it opened and a plugin that carries the
    configuration, the name and the handler unchanged and the rules that
    compile. *)
Theorem New_outcome (h : http.Handler) (c : Config) (n : string) :
  match New h c n with
  | inl e =>
      (MaxExpiry c <= 1 /\ e = "maxExpiry must be greater or equal to 1") \/
      (1 < MaxExpiry c /\ Cleanup c <= 1 /\
       e = "cleanup must be greater or equal to 1") \/
      (1 < MaxExpiry c /\ 1 < Cleanup c /\
       newFileCache (Path c) (time.seconds (Cleanup c)) = inl e)
  | inr (m, fc) =>
      1 < MaxExpiry c /\ 1 < Cleanup c /\
      newFileCache (Path c) (time.seconds (Cleanup c)) = inr fc /\
      cfg m = c /\ name m = n /\ next m = h /\ uriMap m = compiled (URIs c)
  end.
Proof.
  unfold New.
  destruct (Z.leb_spec (MaxExpiry c) 1) as [Hmax|Hmax]; [left; done|].
  destruct (Z.leb_spec (Cleanup c) 1) as [Hcl|Hcl]; [right; left; done|].
  destruct (newFileCache _ _) as [e|fc] eqn:Hfc; [right; right; done|].
  cbn. rewrite compileURIs_acc. done.
Qed.

(** X2.  The loop of [New] over the configured rules installs a rule
    exactly when its pattern compiles, with the TTL it was configured with;
    a pattern that does not compile is passed over, and every rule that
    compiles gets an entry of its own, rules configured twice included. *)
Theorem compileURIs_installs_what_compiles (uris : list Uri) :
  (forall re ttl,
     (re, ttl) ∈ compileURIs uris [] <->
     exists uri, uri ∈ uris /\ regexp_Compile (Pattern uri) = inr re /\
                 TTL uri = ttl) /\
  (compileURIs uris []).*2 =
    omap (fun uri => match regexp_Compile (Pattern uri) with
                     | inr _ => Some (TTL uri)
                     | inl _ => None
                     end) uris.
Proof.
  rewrite compileURIs_acc. cbn [app]. split.
  - intros re ttl. unfold compiled. rewrite list_elem_of_omap. split.
    + intros (uri & Hin & Hc).
      destruct (regexp_Compile (Pattern uri)) as [e|re'] eqn:Hre; [done|].
      injection Hc as <- <-. eauto.
    + intros (uri & Hin & Hre & <-). exists uri. rewrite Hre. done.
  - induction uris as [|uri uris IH]; [reflexivity|].
    cbn. destruct (regexp_Compile (Pattern uri)) as [e|re]; cbn.
    + exact IH.
    + f_equal. exact IH.
Qed.

(** X3.  The default configuration passes the checks of [New] for every
    storage path: on it [New] fails only with the error of the store, and
    the plugin it builds has no rule and runs in standard mode with a
    maximum expiry of 300 seconds. *)
Theorem New_on_CreateConfig (h : http.Handler) (path n : string) :
  New h (withPath path CreateConfig) n =
  match newFileCache path (300 * time.Second) with
  | inl e => inl e
  | inr fc =>
      inr ({| name := n; cfg := withPath path CreateConfig; uriMap := [];
              next := h |}, fc)
  end /\
  SkipCacheControlHeader (withPath path CreateConfig) = false /\
  time.seconds (MaxExpiry (withPath path CreateConfig)) = 300 * time.Second.
Proof. repeat split. Qed.

End Construction_more.

(** ** The capture, against what the client is sent *)

Section Capture_more.

Context `{L : Lib}.

Implicit Types (sc : http.Script) (w : http.ServerWriter).

Lemma sent_run sc w x :
  http.sent w = Some x -> http.sent (http.run sc w) = Some x.
Proof.
  revert w. induction sc as [|k IH|f k IH|c k IH|p k IH]; intros w Hw; cbn.
  - exact Hw.
  - apply IH, Hw.
  - apply IH. exact Hw.
  - apply IH. unfold http.ServerWriter_WriteHeader. rewrite Hw. exact Hw.
  - apply IH. cbn. unfold http.ServerWriter_WriteHeader. rewrite Hw. exact Hw.
Qed.

Lemma noWriteHeader_lastStatus {W} `{!http.ResponseWriter W} sc (w : W) st :
  noWriteHeader sc -> lastStatus sc w st = st.
Proof.
  revert w. induction sc as [|k IH|f k IH|c k IH|p k IH]; intros w Hsc; cbn in *.
  - reflexivity.
  - apply IH, Hsc.
  - apply IH, Hsc.
  - destruct Hsc.
  - destruct (http.w_Write p w) as [res w']. apply IH, Hsc.
Qed.

(** X5.  When no status has been sent yet and the handler calls
    [WriteHeader] once, with a final status code (200..999), before it
    writes any body, the status held by the capture is the status the client
    is sent. *)
Theorem captured_status_is_what_was_sent (m : cache) (r : http.Request)
    (s : Sys http.ServerWriter) (c : Z) :
  http.sent (writer s) = None ->
  writesHeaderOnce c (next m r) ->
  200 <= c <= 999 ->
  status (serveNext m r s).1 = c /\
  exists h, http.sent (writer (serveNext m r s).2) = Some (c, h).
Proof.
  intros Hfresh Honce _.
  destruct (serveNext_state m r s) as (-> & _).
  destruct (serveNext_capture m r s) as (-> & _).
  generalize dependent (writer s). generalize 0.
  induction (next m r) as [|k IH|f k IH|c' k IH|p k IH];
    intros st w Hfresh; cbn in *.
  - destruct Honce.
  - apply IH; [apply Honce | exact Hfresh].
  - apply IH; [exact Honce | exact Hfresh].
  - destruct Honce as [-> Hquiet]. split.
    + apply noWriteHeader_lastStatus, Hquiet.
    + exists (http.header w). apply sent_run.
      unfold http.ServerWriter_WriteHeader. rewrite Hfresh. reflexivity.
  - destruct Honce.
Qed.

(** X6.  A second [WriteHeader] is ignored by the server and recorded by
    the capture: when the handler calls [WriteHeader] with the final status
    code [c1] and then with the final status code [c2] (both in 200..999)
    and never again, the client is sent [c1] and the capture holds [c2]. *)
Theorem second_WriteHeader_is_captured (m : cache) (r : http.Request)
    (s : Sys http.ServerWriter) (c1 c2 : Z) (k : http.Script) :
  http.sent (writer s) = None ->
  next m r = http.CallWriteHeader c1 (http.CallWriteHeader c2 k) ->
  noWriteHeader k ->
  200 <= c1 <= 999 ->
  200 <= c2 <= 999 ->
  status (serveNext m r s).1 = c2 /\
  http.sent (writer (serveNext m r s).2) = Some (c1, http.header (writer s)).
Proof.
  intros Hfresh Hnext Hquiet _ _.
  destruct (serveNext_state m r s) as (-> & _).
  destruct (serveNext_capture m r s) as (-> & _).
  rewrite Hnext. cbn. split.
  - apply noWriteHeader_lastStatus, Hquiet.
  - apply sent_run. unfold http.ServerWriter_WriteHeader. rewrite Hfresh.
    cbn. reflexivity.
Qed.

End Capture_more.

Lemma captured_status_is_what_was_sent_witness :
  let m := Scenario.plugin (L := Scenario.lib) Scenario.explicit200
             (Scenario.override "/api/" 30 0) in
  let r := Scenario.request "GET" "example.com" "/api/items" "" in
  let s := Sim.start (L := Scenario.lib) Scenario.emptyStore in
  status (serveNext m r s).1 = 200 /\
  exists h, http.sent (writer (serveNext m r s).2) = Some (200, h).
Proof.
  intros m r s.
  apply (captured_status_is_what_was_sent m r s 200);
    [reflexivity | split; [reflexivity | intros res; exact I] | lia].
Defined.

Lemma second_WriteHeader_is_captured_witness :
  let m := {| name := "cache"; cfg := Scenario.override "/api/" 30 0;
              uriMap := [];
              next := fun _ => http.CallWriteHeader 200
                                 (http.CallWriteHeader 500 http.Done) |} in
  let r := Scenario.request "GET" "example.com" "/api/items" "" in
  let s := Sim.start (L := Scenario.lib) Scenario.emptyStore in
  status (serveNext m r s).1 = 500 /\
  http.sent (writer (serveNext m r s).2) = Some (200, http.header (writer s)).
Proof.
  intros m r s.
  apply (second_WriteHeader_is_captured m r s 200 500 http.Done);
    [reflexivity | reflexivity | exact I | lia | lia].
Defined.

(** ** Responses served from the store *)

Section Hit.

Context `{L : Lib}.

Implicit Types (m : cache) (r : http.Request) (h : http.Header).

(** The writer after a replay of [data]. *)
Lemma lookup_hit {W} `{!http.ResponseWriter W} m key (s : Sys W) b data fc :
  fileCache_Get key (fcache s) = (inr b, fc) ->
  json_Unmarshal b = inr data ->
  (lookup m key s).1 = None /\
  trace (lookup m key s).2 = trace s ++ [EvGet key] /\
  fcache (lookup m key s).2 = fc /\
  writer (lookup m key s).2 =
    (http.w_Write (Body data)
       (http.w_WriteHeader (Status data)
          ((if AddStatusHeader (cfg m) then
              fun w =>
                http.w_onHeader
                  (http.Header_Set (CanonicalHeaderKey cacheHeader) cacheHitStatus)
                  (http.w_onHeader
                     (http.Header_Set (CanonicalHeaderKey "Cache-Control")
                        ("max-age=" +:+
                         pretty (time.SecondsInt
                                   (time.Sub (ExpiresAt data)
                                             (time_Now (S (ticks s)))))))
                     w)
            else fun w => w)
             (http.w_onHeader
                (addHeaders (rangeOrder (ticks s) _ (map_to_list (Headers data))))
                (writer s))))).2.
Proof.
  intros Hget Hdec. unfold lookup, bind, cache_Get, emit; cbn.
  rewrite Hget, Hdec.
  unfold range, bind, tick, ret, onWriter, Now; cbn.
  destruct (AddStatusHeader (cfg m)); cbn; done.
Qed.

(** X7.  A request whose key the store answers with bytes that decode is
    served without the wrapped handler: its only event is the [Get], so it
    calls neither the handler nor [Set] and logs nothing, and it leaves the
    store as the [Get] left it. *)
Theorem hit_is_served_from_store_alone {W} `{!http.ResponseWriter W}
    m r (s : Sys W) b data fc :
  fileCache_Get (cacheKey r) (fcache s) = (inr b, fc) ->
  json_Unmarshal b = inr data ->
  trace (ServeHTTP m r s).2 = trace s ++ [EvGet (cacheKey r)] /\
  fcache (ServeHTTP m r s).2 = fc.
Proof.
  intros Hget Hdec.
  destruct (lookup_hit m _ s _ _ _ Hget Hdec) as (Hnone & Ht & Hfc & _).
  destruct (lookup m (cacheKey r) s) as [served s1] eqn:Hlook.
  cbn in Hnone, Ht, Hfc. subst served.
  rewrite (ServeHTTP_served _ _ _ _ Hlook). done.
Qed.



(** [Add] on one key, value after value. *)
Lemma Header_Add_values (ckey ckey' : string) (vals : list string) h :
  foldl (fun h val => http.Header_Add ckey val h) h vals !! ckey' =
  if decide (ckey = ckey') then
    match vals with
    | [] => h !! ckey'
    | _ => Some (default [] (h !! ckey') ++ vals)
    end
  else h !! ckey'.
Proof.
  revert h. induction vals as [|val vals IH]; intros h; cbn.
  - case_decide; reflexivity.
  - rewrite IH. unfold http.Header_Add. case_decide as Hk.
    + subst ckey'. rewrite lookup_insert_eq. cbn.
      destruct vals; cbn; rewrite <- ?app_assoc; reflexivity.
    + rewrite lookup_insert_ne by exact Hk. reflexivity.
Qed.

(** X9.  The replay adds the stored header values to those the writer
    already holds: under each canonical key the values present before come
    first, then the stored values of every stored key with that canonical
    form, in the order in which the entries are visited; a key stored with
    no value adds nothing. *)
Theorem addHeaders_appends (entries : list (string * list string)) h
    (ckey : string) :
  addHeaders entries h !! ckey =
  match storedValues ckey entries with
  | [] => h !! ckey
  | vals => Some (default [] (h !! ckey) ++ vals)
  end.
Proof.
  unfold addHeaders, storedValues.
  revert h. induction entries as [|[key vals] entries IH]; intros h;
    [reflexivity|].
  cbn [foldl]. rewrite IH, filter_cons. cbn [fst].
  rewrite !Header_Add_values.
  case_decide as Hk; cbn [fmap list_fmap concat snd].
  - destruct vals as [|val vals]; [reflexivity|].
    destruct (concat _) as [|v rest]; cbn.
    + rewrite app_nil_r. reflexivity.
    + rewrite <- app_assoc. reflexivity.
  - reflexivity.
Qed.

Lemma header_WriteHeader (c : Z) (w : http.ServerWriter) :
  http.header (http.w_WriteHeader c w) = http.header w.
Proof.
  cbn. unfold http.ServerWriter_WriteHeader. destruct (http.sent w); reflexivity.
Qed.

Lemma header_Write (p : bytes) (w : http.ServerWriter) :
  http.header (http.w_Write p w).2 = http.header w.
Proof. cbn. apply (header_WriteHeader 200). Qed.

Lemma header_onHeader (f : http.Header -> http.Header) (w : http.ServerWriter) :
  http.header (http.w_onHeader f w) = f (http.header w).
Proof. reflexivity. Qed.

(** X10.  With the diagnostic header enabled, a response served from the
    store carries the single cache status [hit], whatever cache status was
    stored with the entry, and (the two header names being distinct) a
    [Cache-Control] header that holds one [max-age] value and nothing of
    what was stored under that name. *)
Theorem hit_sets_diagnostic_headers m r (s : Sys http.ServerWriter) b data fc :
  fileCache_Get (cacheKey r) (fcache s) = (inr b, fc) ->
  json_Unmarshal b = inr data ->
  AddStatusHeader (cfg m) = true ->
  CanonicalHeaderKey "Cache-Control" <> CanonicalHeaderKey cacheHeader ->
  http.header (writer (ServeHTTP m r s).2) !! CanonicalHeaderKey cacheHeader =
    Some [cacheHitStatus] /\
  exists maxAge : Z,
    http.header (writer (ServeHTTP m r s).2) !! CanonicalHeaderKey "Cache-Control" =
      Some ["max-age=" +:+ pretty maxAge].
Proof.
  intros Hget Hdec Hon Hne.
  destruct (lookup_hit m _ s _ _ _ Hget Hdec) as (Hnone & _ & _ & Hw).
  destruct (lookup m (cacheKey r) s) as [served s1] eqn:Hlook.
  cbn [fst snd] in Hnone, Hw. subst served.
  rewrite (ServeHTTP_served _ _ _ _ Hlook). cbn [snd]. rewrite Hw, Hon.
  rewrite header_Write, header_WriteHeader, !header_onHeader.
  unfold http.Header_Set.
  rewrite lookup_insert_eq, lookup_insert_ne, lookup_insert_eq by congruence.
  eauto.
Qed.

End Hit.

Lemma hit_is_served_from_store_alone_witness :
  let m := Scenario.plugin (L := libStored) Scenario.explicit200
             (Scenario.override "/api/" 30 0) in
  let r := Scenario.request "GET" "example.com" "/api/items" "" in
  let fc : @Store libStored :=
    Scenario.storeWith "GETexample.com/api/items" storedBytes in
  let s := Sim.start (L := libStored) fc in
  trace (ServeHTTP m r s).2 = trace s ++ [EvGet (cacheKey r)] /\
  fcache (ServeHTTP m r s).2 = fc.
Proof.
  intros m r fc s.
  apply (hit_is_served_from_store_alone m r s storedBytes storedEntry fc);
    vm_compute; reflexivity.
Defined.


Lemma hit_sets_diagnostic_headers_witness :
  let m := Scenario.plugin (L := libStored) Scenario.explicit200
             (Scenario.override "/api/" 30 0) in
  let r := Scenario.request "GET" "example.com" "/api/items" "" in
  let fc : @Store libStored :=
    Scenario.storeWith "GETexample.com/api/items" storedBytes in
  let s := Sim.start (L := libStored) fc in
  http.header (writer (ServeHTTP m r s).2) !! "Cache-Status" = Some ["hit"] /\
  exists maxAge : Z,
    http.header (writer (ServeHTTP m r s).2) !! "Cache-Control" =
      Some ["max-age=" +:+ pretty maxAge].
Proof.
  intros m r fc s.
  apply (hit_sets_diagnostic_headers m r s storedBytes storedEntry fc);
    [vm_compute; reflexivity | vm_compute; reflexivity | reflexivity
    | discriminate].
Defined.

(** ** The life of a request *)

Section Lifecycle.

Context `{L : Lib} {W : Type} `{RW : !http.ResponseWriter W}.

Implicit Types (m : cache) (r : http.Request) (s : Sys W).

(** The events of a write-back, one by one. *)
Lemma writeBack_events m key rw expiry s :
  exists pre post,
    trace (writeBack m key rw expiry s).2 =
      trace s ++ pre ++ EvSet key (json_Marshal (entry rw expiry s)).1 expiry :: post /\
    (pre = [] \/ exists msg, pre = [EvLog msg]) /\
    (post = [] \/ exists msg, post = [EvLog msg]).
Proof.
  unfold writeBack, entry, bind, Now, tick, getWriter, ret; cbn.
  destruct (json_Marshal _) as [b err].
  unfold bind, cache_Set, logPrintf, emit, ret; cbn.
  destruct err as [e|]; cbn;
    destruct (fileCache_Set key b expiry (fcache s)) as [[e'|] fc]; cbn.
  - exists [EvLog ("Error serializing cache item: " +:+ e)],
           [EvLog ("Error setting cache item: " +:+ e')].
    split; [rewrite <- !app_assoc; reflexivity | naive_solver].
  - exists [EvLog ("Error serializing cache item: " +:+ e)], [].
    split; [rewrite <- !app_assoc; reflexivity | naive_solver].
  - exists [], [EvLog ("Error setting cache item: " +:+ e')].
    split; [rewrite <- !app_assoc; reflexivity | naive_solver].
  - exists [], []. split; [reflexivity | naive_solver].
Qed.

(** X11.  Every request runs through one of three courses, and its events
    say which: a [Get] alone (served from the store); a [Get] and the call
    of the wrapped handler (passed through, not stored); or a [Get], the
    call of the handler and one [Set], with at most one logged line before
    the [Set] and at most one after it.  The [Get] and the [Set] are for the
    key of the request. *)
Theorem ServeHTTP_events m r s :
  exists rest,
    trace (ServeHTTP m r s).2 = trace s ++ EvGet (cacheKey r) :: rest /\
    (rest = [] \/
     rest = [EvNext r] \/
     exists b expiry pre post,
       rest = EvNext r :: pre ++ EvSet (cacheKey r) b expiry :: post /\
       (pre = [] \/ exists msg, pre = [EvLog msg]) /\
       (post = [] \/ exists msg, post = [EvLog msg])).
Proof.
  pose proof (lookup_trace m (cacheKey r) s) as Ht.
  destruct (lookup m (cacheKey r) s) as [[cs|] s1] eqn:Hlook; cbn in Ht.
  - rewrite (ServeHTTP_passthrough _ _ _ _ _ Hlook).
    destruct (serveNext m r (announce m cs s1).2) as [rw s2] eqn:Hnext.
    destruct (cacheable m r (status rw) s2) as [[expiry ok] s3] eqn:Hpol.
    destruct (admission_state _ _ _ _ _ _ _ _ _ Hlook Hnext Hpol) as (Ht3 & _ & _).
    destruct ok; lazy beta iota.
    + destruct (writeBack_events m (cacheKey r) rw expiry s3)
        as (pre & post & -> & Hpre & Hpost).
      rewrite Ht3, <- app_assoc. cbn. eexists. split; [reflexivity|].
      right. right. eauto 8.
    + cbn [snd]. rewrite Ht3. cbn. eauto.
  - rewrite (ServeHTTP_served _ _ _ _ Hlook). cbn. rewrite Ht. eauto.
Qed.

(** X12.  On a miss the writer of the client ends up exactly as the calls of
    the wrapped handler leave it, started from the writer as it was (with
    the cache status [miss] set first when the diagnostic header is
    enabled), and the handler is called once: the policy, the encoder and
    the store add nothing to the response and take nothing from it. *)
Theorem miss_is_transparent m r s e fc :
  fileCache_Get (cacheKey r) (fcache s) = (inl e, fc) ->
  writer (ServeHTTP m r s).2 =
    http.run (next m r)
      (if AddStatusHeader (cfg m) then
         http.w_onHeader
           (http.Header_Set (CanonicalHeaderKey cacheHeader) cacheMissStatus)
           (writer s)
       else writer s) /\
  nexts (trace (ServeHTTP m r s).2) = nexts (trace s) ++ [r].
Proof.
  intros Hget. rewrite (ServeHTTP_miss _ _ _ _ _ Hget).
  destruct (passThrough_next m r (cacheKey r) cacheMissStatus
              (afterGet (cacheKey r) fc s)) as (-> & ->).
  split.
  - unfold announce. destruct (AddStatusHeader (cfg m)); reflexivity.
  - cbn. rewrite nexts_app. cbn. rewrite app_nil_r. reflexivity.
Qed.

(** X13.  What a request stores: the entry given to the encoder has the
    status of the handler's last [WriteHeader] call (0 without one), the
    bytes of all its [Write] calls in order, the header map of the writer as
    it stands when the handler has returned, and as expiry instant the
    clock reading plus the expiry the policy returned; the bytes of the
    encoder are what [Set] receives. *)
Theorem stored_entry m r s cs s1 rw s2 expiry s3 :
  lookup m (cacheKey r) s = (Some cs, s1) ->
  serveNext m r (announce m cs s1).2 = (rw, s2) ->
  cacheable m r (status rw) s2 = (expiry, true, s3) ->
  let w1 := writer (announce m cs s1).2 in
  sets (trace (ServeHTTP m r s).2) =
  sets (trace s) ++
  [(cacheKey r,
    (json_Marshal
       {| ExpiresAt := time.Add (time_Now (ticks s3)) expiry;
          Status := lastStatus (next m r) w1 0;
          Headers := http.w_Header (http.run (next m r) w1);
          Body := written (next m r) w1 |}).1,
    expiry)].
Proof.
  intros Hlook Hnext Hpol w1.
  rewrite (admission_sets _ _ _ _ _ _ _ _ _ _ Hlook Hnext Hpol).
  destruct (admission_state _ _ _ _ _ _ _ _ _ Hlook Hnext Hpol) as (_ & _ & Hw3).
  destruct (serveNext_capture m r (announce m cs s1).2) as (Hst & Hbody).
  rewrite Hnext in Hst, Hbody. cbn [fst] in Hst, Hbody.
  unfold entry. rewrite Hw3, Hst, Hbody. reflexivity.
Qed.

End Lifecycle.

Lemma miss_is_transparent_witness :
  let m := Scenario.plugin (L := Scenario.lib) Scenario.explicit200
             (Scenario.override "/api/" 30 0) in
  let r := Scenario.request "GET" "example.com" "/api/items" "" in
  let s := Sim.start (L := Scenario.lib) Scenario.emptyStore in
  writer (ServeHTTP m r s).2 =
    http.run (next m r)
      (http.w_onHeader (http.Header_Set "Cache-Status" "miss") (writer s)) /\
  nexts (trace (ServeHTTP m r s).2) = nexts (trace s) ++ [r].
Proof.
  intros m r s.
  apply (miss_is_transparent m r s Sim.errCacheMiss (fcache s)).
  vm_compute. reflexivity.
Defined.

Lemma stored_entry_witness :
  let m := Scenario.plugin (L := Scenario.lib) Scenario.explicit200
             (Scenario.override "/api/" 30 0) in
  let r := Scenario.request "GET" "example.com" "/api/items" "" in
  let s := Sim.start (L := Scenario.lib) Scenario.emptyStore in
  let s1 := (lookup m (cacheKey r) s).2 in
  let w1 := writer (announce m cacheMissStatus s1).2 in
  let next_ := serveNext m r (announce m cacheMissStatus s1).2 in
  let s3 := (cacheable m r (status next_.1) next_.2).2 in
  sets (trace (ServeHTTP m r s).2) =
  sets (trace s) ++
  [(cacheKey r,
    (@json_Marshal Scenario.lib
       {| ExpiresAt := time.Add (@time_Now Scenario.lib (ticks s3))
                                (30 * time.Second);
          Status := lastStatus (next m r) w1 0;
          Headers := http.w_Header (http.run (next m r) w1);
          Body := written (next m r) w1 |}).1,
    30 * time.Second)].
Proof.
  intros m r s s1 w1 next_ s3.
  apply (stored_entry m r s cacheMissStatus s1 next_.1 next_.2
           (30 * time.Second) s3); vm_compute; reflexivity.
Defined.

(** ** From the write to the store to the replay *)

Section Replay.

Context `{L : Lib} {W : Type} `{RW : !http.ResponseWriter W}.

Implicit Types (m : cache) (r : http.Request) (s : Sys W).


End Replay.


(** ** What the policy depends on *)

Section Policy_more.

Context `{L : Lib} {W : Type} `{RW : !http.ResponseWriter W}.

Implicit Types (m : cache) (r : http.Request) (s : Sys W).

(** X15.  With a maximum expiry between 2 seconds and 9223372036 seconds
    (the range in which the conversion to nanoseconds does not overflow),
    no response is deemed cacheable for longer than the maximum expiry. *)
Theorem expiry_within_maximum m r status s expiry :
  1 < MaxExpiry (cfg m) <= 9223372036 ->
  (cacheable m r status s).1 = (expiry, true) ->
  expiry <= MaxExpiry (cfg m) * time.Second.
Proof.
  intros Hmax Hpol. rewrite cacheable_candidate in Hpol.
  destruct (candidateExpiry m r status s) as [c|]; [|discriminate].
  injection Hpol as <-. unfold maximumExpiry.
  rewrite seconds_small by lia. unfold time.Second. lia.
Qed.

(** X16.  In standard mode the policy reads nothing of the configuration
    but the maximum expiry: the rules and the default TTL play no part, and
    two plugins in standard mode with the same maximum expiry decide
    alike. *)
Theorem standard_mode_reads_only_MaxExpiry m m' r status s :
  SkipCacheControlHeader (cfg m) = false ->
  SkipCacheControlHeader (cfg m') = false ->
  MaxExpiry (cfg m) = MaxExpiry (cfg m') ->
  cacheable m r status s = cacheable m' r status s.
Proof.
  intros Hm Hm' Hmax. unfold cacheable. rewrite Hm, Hm', Hmax. reflexivity.
Qed.

(** X17.  In override mode the policy looks neither at the status of the
    response nor at its headers: whatever the handler answered, the
    decision and the expiry are the same. *)
Theorem override_mode_ignores_response m r status status' s s' :
  SkipCacheControlHeader (cfg m) = true ->
  ticks s = ticks s' ->
  (cacheable m r status s).1 = (cacheable m r status' s').1.
Proof.
  intros Hskip Hticks. rewrite !cacheable_candidate.
  unfold candidateExpiry. rewrite Hskip, Hticks. reflexivity.
Qed.

(** The first match in any list with the entries of [uriMap]. *)
Lemma list_find_matching m r (entries : list (regexp.Regexp * Z)) ttl :
  entries ≡ₚ uriMap m ->
  matchingTTLs m r <> [] ->
  (forall t, t ∈ matchingTTLs m r -> t = ttl) ->
  exists i re,
    list_find (fun e => regexp.MatchString e.1 (url.String (http.URL r)) = true)
              entries = Some (i, (re, ttl)).
Proof.
  intros Hperm Hsome Hall.
  destruct (list_find _ entries) as [[i [re t]]|] eqn:Hfind.
  - apply list_find_Some in Hfind as (Hi & Hmatch & _). cbn in Hmatch.
    assert (t = ttl) as ->; [|exists i, re; reflexivity].
    apply Hall. unfold matchingTTLs.
    apply (list_elem_of_fmap_2 snd _ (re, t)).
    apply list_elem_of_filter. split; [exact Hmatch|].
    rewrite <- Hperm. eapply list_elem_of_lookup_2, Hi.
  - exfalso. apply Hsome. unfold matchingTTLs.
    apply list_find_None in Hfind. rewrite Hperm in Hfind. clear Hperm.
    induction (uriMap m) as [|e l IH]; [reflexivity|].
    inversion Hfind as [|? ? Hne Hrest]; subst.
    rewrite filter_cons, decide_False by exact Hne. apply IH, Hrest.
Qed.

(** X18.  In override mode, with a maximum expiry of at most 9223372036
    seconds, when some rule matches the URL and all the rules that match
    carry the same TTL, of at most 9223372036 seconds either way, the policy
    returns that TTL, clamped to the maximum expiry, in whatever order the
    map of rules is visited. *)
Theorem matching_rules_agree m r status s ttl :
  SkipCacheControlHeader (cfg m) = true ->
  matchingTTLs m r <> [] ->
  (forall t, t ∈ matchingTTLs m r -> t = ttl) ->
  -9223372036 <= ttl <= 9223372036 ->
  1 < MaxExpiry (cfg m) <= 9223372036 ->
  (cacheable m r status s).1 =
    (Z.min (ttl * time.Second) (MaxExpiry (cfg m) * time.Second), true).
Proof.
  intros Hskip Hsome Hall Httl Hmax. rewrite cacheable_candidate.
  unfold candidateExpiry. rewrite Hskip.
  destruct (list_find_matching m r (rangeOrder (ticks s) _ (uriMap m)) ttl)
    as (i & re & ->); [apply rangeOrder_perm | exact Hsome | exact Hall |].
  rewrite (maximumExpiry_spec _ Hmax), seconds_small by exact Httl.
  reflexivity.
Qed.

End Policy_more.

Lemma expiry_within_maximum_witness :
  let m := Scenario.plugin (L := Scenario.lib) Scenario.explicit200
             (Scenario.override "/api/" 3600 0) in
  let r := Scenario.request "GET" "example.com" "/api/items" "" in
  let s := Sim.start (L := Scenario.lib) Scenario.emptyStore in
  300 * time.Second <= MaxExpiry (cfg m) * time.Second.
Proof.
  intros m r s.
  apply (expiry_within_maximum m r 200 s (300 * time.Second));
    [cbn; lia | vm_compute; reflexivity].
Defined.

Lemma standard_mode_reads_only_MaxExpiry_witness :
  let m := Scenario.plugin (L := Scenario.libFresh) Scenario.explicit200
             (Scenario.standard 60) in
  let m' := {| name := "other";
               cfg := {| Path := "/tmp"; MaxExpiry := 60; Cleanup := 2;
                         AddStatusHeader := false; AllowedHTTPMethods := [];
                         SkipCacheControlHeader := false; DefaultTTL := 900;
                         URIs := [ {| Pattern := "/"; TTL := 7 |} ] |};
               uriMap := [({| regexp.expr := "/";
                              regexp.MatchString := fun _ => true |}, 7)];
               next := Scenario.bodyOnly |} in
  let r := Scenario.request "GET" "example.com" "/api/items" "" in
  let s := Sim.start (L := Scenario.libFresh) Scenario.emptyStore in
  cacheable m r 200 s = cacheable m' r 200 s.
Proof.
  intros m m' r s.
  apply (standard_mode_reads_only_MaxExpiry m m' r 200 s); reflexivity.
Defined.

Lemma override_mode_ignores_response_witness :
  let m := Scenario.plugin (L := Scenario.lib) Scenario.explicit200
             (Scenario.override "/api/" 30 0) in
  let r := Scenario.request "GET" "example.com" "/api/items" "" in
  let s := Sim.start (L := Scenario.lib) Scenario.emptyStore in
  let s' := (serveNext m r s).2 in
  (cacheable m r 200 s).1 = (cacheable m r 500 s').1.
Proof.
  intros m r s s'.
  apply (override_mode_ignores_response m r 200 500 s s'); reflexivity.
Defined.

Lemma matching_rules_agree_witness :
  let m := {| name := "cache";
              cfg := Scenario.override "/api/" 30 0;
              uriMap := [({| regexp.expr := "/api/";
                             regexp.MatchString := Sim.contains "/api/" |}, 30);
                         ({| regexp.expr := "^/health$";
                             regexp.MatchString :=
                               fun u => bool_decide (u = "/health") |}, 5);
                         ({| regexp.expr := "items";
                             regexp.MatchString := Sim.contains "items" |}, 30)];
              next := Scenario.explicit200 |} in
  let r := Scenario.request "GET" "example.com" "/api/items" "" in
  let s := Sim.start (L := Scenario.lib) Scenario.emptyStore in
  (cacheable m r 200 s).1 =
    (Z.min (30 * time.Second) (MaxExpiry (cfg m) * time.Second), true).
Proof.
  intros m r s.
  apply (matching_rules_agree m r 200 s 30);
    [reflexivity | discriminate | | lia | cbn; lia].
  intros t Ht. vm_compute in Ht.
  repeat (apply elem_of_cons in Ht as [Ht|Ht]; [exact Ht|]).
  apply elem_of_nil in Ht. destruct Ht.
Defined.
